(** * Transaction webhook service: ingestion, idempotency, background processing

    A shallow embedding of [database.py], [main.py] and [background_tasks.py].

    - The [transactions] table is the list of its rows in insertion order; the
      primary key [transaction_id] makes an insert of a known key raise.
    - A request handler or a coroutine segment is a computation over the table
      that returns a value or raises ([M]).
    - [process_transaction] suspends once, at [await asyncio.sleep(30)]; the
      embedding splits it there into [process_transaction_begin] and
      [process_transaction_resume], so that requests and other runs can be
      interleaved while a run sleeps.  Each segment runs atomically.
    - The [try] block of [process_transaction] may meet an exception at its
      initial query, at either commit, or in the awaited step ([Fault]).
      [except Exception] catches instances of [Exception] only; the handler
      may itself meet an exception at its query or at its commit.  A commit
      that raised is never rolled back by the code, so every later use of the
      session raises.  The request handlers of [main.py] install no handler
      and are modelled on an available store.
    - Timestamps ([datetime.now(timezone.utc)]) are supplied by the caller of
      each definition, as integers (microseconds). *)

From Stdlib Require Import List String ZArith Bool Lia Permutation Sorted.
From Stdlib Require Import Floats.PrimFloat.
Import ListNotations.
Open Scope string_scope.
Open Scope Z_scope.
Open Scope list_scope.

(** ** database.py *)

Module Database.

Definition datetime := Z.

(** class Transaction(Base): one row of the table [transactions]. *)
Record Transaction := mkTransaction {
  transaction_id : string;
  source_account : string;
  destination_account : string;
  amount : float;
  currency : string;
  status : string;
  created_at : datetime;
  processed_at : option datetime;
  webhook_received_at : datetime;
  processing_started_at : option datetime;
  is_processing : bool;
  error_message : option string
}.

(** Attribute assignments [transaction.<column> = v]. *)
Definition with_status (v : string) (r : Transaction) : Transaction :=
  mkTransaction (transaction_id r) (source_account r) (destination_account r)
    (amount r) (currency r) v (created_at r) (processed_at r)
    (webhook_received_at r) (processing_started_at r) (is_processing r)
    (error_message r).

Definition with_processed_at (v : option datetime) (r : Transaction) : Transaction :=
  mkTransaction (transaction_id r) (source_account r) (destination_account r)
    (amount r) (currency r) (status r) (created_at r) v
    (webhook_received_at r) (processing_started_at r) (is_processing r)
    (error_message r).

Definition with_processing_started_at (v : option datetime) (r : Transaction)
  : Transaction :=
  mkTransaction (transaction_id r) (source_account r) (destination_account r)
    (amount r) (currency r) (status r) (created_at r) (processed_at r)
    (webhook_received_at r) v (is_processing r) (error_message r).

Definition with_is_processing (v : bool) (r : Transaction) : Transaction :=
  mkTransaction (transaction_id r) (source_account r) (destination_account r)
    (amount r) (currency r) (status r) (created_at r) (processed_at r)
    (webhook_received_at r) (processing_started_at r) v (error_message r).

Definition with_error_message (v : option string) (r : Transaction) : Transaction :=
  mkTransaction (transaction_id r) (source_account r) (destination_account r)
    (amount r) (currency r) (status r) (created_at r) (processed_at r)
    (webhook_received_at r) (processing_started_at r) (is_processing r) v.

(** The table, oldest insert first. *)
Definition Table := list Transaction.

Definition has_key (t : string) (r : Transaction) : bool :=
  String.eqb (transaction_id r) t.

(** [str(e)] of a raised exception. *)
Definition Exception := string.

(** A call returns, raises an instance of [Exception], or raises a
    [BaseException] that is no [Exception] (asyncio.CancelledError,
    KeyboardInterrupt). *)
Inductive result (A : Type) : Type :=
| Ok (a : A)
| Raise (e : Exception)
| RaiseBase (e : Exception).
Arguments Ok {A} a.
Arguments Raise {A} e.
Arguments RaiseBase {A} e.

(** db.query(Transaction).filter(Transaction.transaction_id == t).first() *)
Definition query_first (t : string) (db : Table) : option Transaction :=
  find (has_key t) db.

(** db.add(r); db.commit(): INSERT.  It is refused when [amount], a column
    declared [nullable=False], is NaN (which SQLite binds as NULL), and when
    the primary key is taken. *)
Definition add_commit (r : Transaction) (db : Table) : result Table :=
  if is_nan (amount r)
  then Raise "IntegrityError: NOT NULL constraint failed: transactions.amount"
  else
    match query_first (transaction_id r) db with
    | Some _ => Raise "IntegrityError: UNIQUE constraint failed: transactions.transaction_id"
    | None => Ok (db ++ [r])
    end.

(** The UPDATE a commit flushes for the attributes assigned on the row [t]. *)
Definition update (t : string) (assign : Transaction -> Transaction) (db : Table)
  : Table :=
  map (fun r => if has_key t r then assign r else r) db.

(** Number of rows carrying the key [t]. *)
Definition count_key (t : string) (db : Table) : nat :=
  List.length (filter (has_key t) db).

Definition keys (db : Table) : list string := map transaction_id db.

End Database.
Export Database.

(** ** Computations of a session that may raise *)

Module Session.

(** A session ([SessionLocal()]) on the table.  [pending] is what the session
    raises on every further use after one of its commits raised: nothing in
    the code rolls it back. *)
Record Conn := mkConn {
  rows : Table;
  pending : option Exception
}.

Definition M (A : Type) : Type := Conn -> result A * Conn.

Definition ret {A} (a : A) : M A := fun c => (Ok a, c).

Definition bind {A B} (m : M A) (k : A -> M B) : M B :=
  fun c =>
    match m c with
    | (Ok a, c') => k a c'
    | (Raise e, c') => (Raise e, c')
    | (RaiseBase e, c') => (RaiseBase e, c')
    end.

(** try: body / except Exception as e: handler e.  A [BaseException] that is
    no [Exception] passes through. *)
Definition try_except {A} (body : M A) (handler : Exception -> M A) : M A :=
  fun c =>
    match body c with
    | (Raise e, c') => handler e c'
    | r => r
    end.

(** db = SessionLocal(); ...; finally: db.close() *)
Definition in_session {A} (m : M A) (db : Table) : result A * Table :=
  let '(r, c) := m (mkConn db None) in (r, rows c).

Declare Scope session_scope.
Delimit Scope session_scope with session.
Notation "x <- c ;; k" := (bind c (fun x => k))
  (at level 61, c at next level, right associativity) : session_scope.
Notation "c ;;; k" := (bind c (fun _ => k))
  (at level 61, right associativity) : session_scope.

(** An exception the environment injects: an instance of [Exception], or a
    [BaseException] that is none. *)
Inductive thrown :=
| Thrown (e : Exception)
| ThrownBase (e : Exception).

Definition throw {A} (th : thrown) : result A :=
  match th with
  | Thrown e => Raise e
  | ThrownBase e => RaiseBase e
  end.

Definition description (th : thrown) : Exception :=
  match th with
  | Thrown e => e
  | ThrownBase e => e
  end.

(** What a session raises once a commit of its own has raised. *)
Definition pending_rollback (cause : Exception) : Exception :=
  String.append
    "PendingRollbackError: This Session's transaction has been rolled back due to a previous exception during flush. Original exception was: "
    cause.

(** A query of the coroutine: refused by a session with a failed commit
    behind it; otherwise it meets the injected fault or goes through. *)
Definition query (fault : option thrown) (t : string)
  : M (option Transaction) :=
  fun c =>
    match pending c with
    | Some e => (Raise e, c)
    | None =>
        match fault with
        | Some th => (throw th, c)
        | None => (Ok (query_first t (rows c)), c)
        end
    end.

(** db.commit() after assignments to the loaded row [t]: one UPDATE of the
    assigned columns.  A commit that raises (the injected fault, or an UPDATE
    that matches no row) writes nothing and leaves the session refusing
    further use. *)
Definition commit (fault : option thrown) (t : string)
    (assign : Transaction -> Transaction) : M unit :=
  fun c =>
    match pending c with
    | Some e => (Raise e, c)
    | None =>
        match fault with
        | Some th =>
            (throw th, mkConn (rows c) (Some (pending_rollback (description th))))
        | None =>
            match query_first t (rows c) with
            | Some _ => (Ok tt, mkConn (update t assign (rows c)) None)
            | None =>
                (Raise "StaleDataError: UPDATE statement expected to update 1 row(s); 0 were matched",
                 mkConn (rows c)
                   (Some (pending_rollback
                            "StaleDataError: UPDATE statement expected to update 1 row(s); 0 were matched")))
            end
        end
    end.

(** await asyncio.sleep(30): touches neither the table nor the session. *)
Definition sleep (fault : option thrown) : M unit :=
  fun c =>
    match fault with
    | Some th => (throw th, c)
    | None => (Ok tt, c)
    end.

End Session.
Export Session.

(** ** background_tasks.py *)

Module BackgroundTasks.

Local Open Scope session_scope.

(** The places of the [try] block where an exception can be raised: the
    initial query, the commit that marks the row as processing, the awaited
    external step, the commit that marks the row as processed. *)
Inductive point := AtLoad | AtMarkCommit | AtSleep | AtFinalCommit.

Definition point_eqb (p q : point) : bool :=
  match p, q with
  | AtLoad, AtLoad | AtMarkCommit, AtMarkCommit
  | AtSleep, AtSleep | AtFinalCommit, AtFinalCommit => true
  | _, _ => false
  end.

(** What the [except] handler meets: nothing, an exception at its query, or
    an exception at its commit. *)
Inductive handler_fault :=
| HandlerRuns
| ReloadRaises (th : thrown)
| PersistRaises (th : thrown).

(** The [try] block stops at the first exception: a run meets at most one
    fault there ([raised_at], [raised]), and then whatever its handler meets
    ([in_handler]). *)
Record Fault := mkFault {
  raised_at : point;
  raised : thrown;
  in_handler : handler_fault
}.

Definition fault_at (f : option Fault) (p : point) : option thrown :=
  match f with
  | Some x => if point_eqb (raised_at x) p then Some (raised x) else None
  | None => None
  end.

Definition reload_fault (f : option Fault) : option thrown :=
  match f with
  | Some x =>
      match in_handler x with
      | ReloadRaises th => Some th
      | _ => None
      end
  | None => None
  end.

Definition persist_fault (f : option Fault) : option thrown :=
  match f with
  | Some x =>
      match in_handler x with
      | PersistRaises th => Some th
      | _ => None
      end
  | None => None
  end.

(** transaction.status in ["PROCESSED", "FAILED"] *)
Definition is_terminal (st : string) : bool :=
  existsb (String.eqb st) ["PROCESSED"; "FAILED"].

(** Where a segment of the coroutine stopped. *)
Inductive progress := Awaiting | Finished.

Definition mark_processing (now : datetime) (r : Transaction) : Transaction :=
  with_processing_started_at (Some now) (with_is_processing true r).

Definition mark_processed (now : datetime) (r : Transaction) : Transaction :=
  with_is_processing false (with_processed_at (Some now) (with_status "PROCESSED" r)).

Definition mark_failed (e : Exception) (r : Transaction) : Transaction :=
  with_is_processing false (with_error_message (Some e) (with_status "FAILED" r)).

(** The [try] block up to the await. *)
Definition begin_body (f : option Fault) (transaction_id : string) (now : datetime)
  : M progress :=
  transaction <- query (fault_at f AtLoad) transaction_id ;;
  match transaction with
  | None => ret Finished
  | Some transaction =>
      if is_terminal (status transaction) then ret Finished
      else
        commit (fault_at f AtMarkCommit) transaction_id (mark_processing now) ;;;
        ret Awaiting
  end.

(** The [try] block from the await on. *)
Definition resume_body (f : option Fault) (transaction_id : string) (now : datetime)
  : M progress :=
  sleep (fault_at f AtSleep) ;;;
  commit (fault_at f AtFinalCommit) transaction_id (mark_processed now) ;;;
  ret Finished.

(** except Exception as e: reload the row and, when it is there, mark it
    failed and commit.  An exception of the handler's query or commit leaves
    the coroutine. *)
Definition on_exception (f : option Fault) (transaction_id : string) (e : Exception)
  : M progress :=
  transaction <- query (reload_fault f) transaction_id ;;
  match transaction with
  | Some _ =>
      commit (persist_fault f) transaction_id (mark_failed e) ;;; ret Finished
  | None => ret Finished
  end.

(** The coroutine from its start to the await, in its own session. *)
Definition process_transaction_begin (f : option Fault) (transaction_id : string)
    (now : datetime) (db : Table) : result progress * Table :=
  in_session
    (try_except (begin_body f transaction_id now) (on_exception f transaction_id))
    db.

(** The coroutine from the await to its end.  Its session has no failed
    commit behind it: the first commit went through, or the await was not
    reached. *)
Definition process_transaction_resume (f : option Fault) (transaction_id : string)
    (now : datetime) (db : Table) : result progress * Table :=
  in_session
    (try_except (resume_body f transaction_id now) (on_exception f transaction_id))
    db.

(** async def process_transaction(transaction_id), run without interleaving:
    [started] and [finished] are the two clock readings. *)
Definition process_transaction (f : option Fault) (transaction_id : string)
    (started finished : datetime) (db : Table) : result progress * Table :=
  match process_transaction_begin f transaction_id started db with
  | (Ok Awaiting, db1) => process_transaction_resume f transaction_id finished db1
  | (Ok Finished, db1) => (Ok Finished, db1)
  | (Raise e, db1) => (Raise e, db1)
  | (RaiseBase e, db1) => (RaiseBase e, db1)
  end.

End BackgroundTasks.
Export BackgroundTasks.

(** ** main.py *)

Module Main.

(** Modelled from the spec: [schemas.TransactionWebhook] is not among the
    sources; the request body is
    {transaction_id, source_account, destination_account, amount, currency},
    the attributes [receive_webhook] reads. *)
Record TransactionWebhook := mkWebhook {
  wh_transaction_id : string;
  wh_source_account : string;
  wh_destination_account : string;
  wh_amount : float;
  wh_currency : string
}.

(** Modelled from the spec: [schemas.TransactionResponse] is not among the
    sources; the projection mirrors the attributes of [Transaction] exactly. *)
Definition TransactionResponse := Transaction.
Definition model_validate (t : Transaction) : TransactionResponse := t.

(** The 202 response of the webhook endpoint. *)
Record Acknowledgment := mkAck {
  status_code : Z;
  message : string;
  ack_transaction_id : string
}.

Definition acknowledged (transaction_id : string) : Acknowledgment :=
  mkAck 202 "Webhook acknowledged" transaction_id.

(** What a call of [receive_webhook] does: its response, and the identifier
    handed to [process_in_background] when a thread is started. *)
Record Received := mkReceived {
  response : result Acknowledgment;
  dispatched : option string
}.

(** async def receive_webhook(webhook, background_tasks, db); the two clock
    readings are those of [created_at] and [webhook_received_at]. *)
Definition receive_webhook (webhook : TransactionWebhook)
    (now_created now_received : datetime) (db : Table) : Received * Table :=
  let transaction_id := wh_transaction_id webhook in
  match query_first transaction_id db with
  | Some existing => (mkReceived (Ok (acknowledged transaction_id)) None, db)
  | None =>
      let transaction :=
        {| transaction_id := transaction_id;
           source_account := wh_source_account webhook;
           destination_account := wh_destination_account webhook;
           amount := wh_amount webhook;
           currency := wh_currency webhook;
           status := "PROCESSING";
           created_at := now_created;
           processed_at := None;
           webhook_received_at := now_received;
           processing_started_at := None;
           is_processing := false;
           error_message := None |} in
      match add_commit transaction db with
      | Raise e => (mkReceived (Raise e) None, db)
      | RaiseBase e => (mkReceived (RaiseBase e) None, db)
      | Ok db' => (mkReceived (Ok (acknowledged transaction_id)) (Some transaction_id), db')
      end
  end.

(** async def get_transaction(transaction_id, db) *)
Definition get_transaction (transaction_id : string) (db : Table)
  : result (list TransactionResponse) :=
  match query_first transaction_id db with
  | None => Raise "404: Transaction not found"
  | Some transaction => Ok [model_validate transaction]
  end.

(** ORDER BY webhook_received_at DESC: rows are inserted one by one into the
    ordered result; rows with equal timestamps keep their table order (SQL
    leaves their order open). *)
Fixpoint insert_desc (r : Transaction) (l : list Transaction) : list Transaction :=
  match l with
  | [] => [r]
  | x :: l' =>
      if webhook_received_at x <=? webhook_received_at r
      then r :: x :: l'
      else x :: insert_desc r l'
  end.

Definition order_by_webhook_received_at_desc (db : Table) : list Transaction :=
  fold_right insert_desc [] db.

(** async def list_transactions(db) *)
Definition list_transactions (db : Table) : list TransactionResponse :=
  map model_validate (order_by_webhook_received_at_desc db).

End Main.
Export Main.

(** ** The running service: requests and background runs interleaved *)

Module Service.

(** A background run is either started and not yet scheduled, or suspended
    in its sleep. *)
Inductive phase := Queued | Sleeping.

Definition phase_eqb (p q : phase) : bool :=
  match p, q with
  | Queued, Queued | Sleeping, Sleeping => true
  | _, _ => false
  end.

Definition Task : Type := string * phase.

Record State := mkState {
  table : Table;
  tasks : list Task
}.

Definition initial : State := mkState [] [].

(** def process_in_background(transaction_id): starts a daemon thread that will
    run [process_transaction]; the caller goes on at once. *)
Definition process_in_background (transaction_id : string) (ts : list Task)
  : list Task :=
  ts ++ [(transaction_id, Queued)].

(** Removes one task of [t] that is in phase [ph]. *)
Fixpoint take (t : string) (ph : phase) (ts : list Task) : option (list Task) :=
  match ts with
  | [] => None
  | (t', ph') :: ts' =>
      if String.eqb t' t && phase_eqb ph' ph then Some ts'
      else option_map (cons (t', ph')) (take t ph ts')
  end.

Inductive event :=
| Ingest (webhook : TransactionWebhook) (now_created now_received : datetime)
| Invoke (transaction_id : string)
| Begin (transaction_id : string) (now : datetime) (f : option Fault)
| Finish (transaction_id : string) (now : datetime) (f : option Fault).

(** One scheduling step; [None] when the event is not enabled.
    - [Ingest]: a POST to the webhook endpoint.
    - [Invoke]: [process_transaction] is started for an identifier by
      something other than a first-time ingest.
    - [Begin]: a started run executes up to its sleep.
    - [Finish]: a sleeping run wakes up and executes to its end. *)
Definition step (s : State) (ev : event) : option State :=
  match ev with
  | Ingest webhook now_created now_received =>
      let '(rc, db') := receive_webhook webhook now_created now_received (table s) in
      Some (mkState db'
              match dispatched rc with
              | Some t => process_in_background t (tasks s)
              | None => tasks s
              end)
  | Invoke t => Some (mkState (table s) (process_in_background t (tasks s)))
  | Begin t now f =>
      match take t Queued (tasks s) with
      | None => None
      | Some rest =>
          let '(out, db') := process_transaction_begin f t now (table s) in
          Some (mkState db'
                  match out with
                  | Ok Awaiting => rest ++ [(t, Sleeping)]
                  | _ => rest
                  end)
      end
  | Finish t now f =>
      match take t Sleeping (tasks s) with
      | None => None
      | Some rest =>
          let '(_, db') := process_transaction_resume f t now (table s) in
          Some (mkState db' rest)
      end
  end.

Fixpoint run (evs : list event) (s : State) : option State :=
  match evs with
  | [] => Some s
  | ev :: evs' =>
      match step s ev with
      | Some s' => run evs' s'
      | None => None
      end
  end.

(** States the service can be in, started on an empty table. *)
Definition Reachable (s : State) : Prop :=
  exists evs, run evs initial = Some s.

(** Traces in which every run was started by a first-time ingest. *)
Definition is_invoke (ev : event) : bool :=
  match ev with
  | Invoke _ => true
  | _ => false
  end.

Definition dispatched_only (evs : list event) : bool :=
  forallb (fun ev => negb (is_invoke ev)) evs.

Definition ReachableByDispatch (s : State) : Prop :=
  exists evs, dispatched_only evs = true /\ run evs initial = Some s.

(** An ingest call for [t] occurs in the trace. *)
Definition ingests (t : string) (evs : list event) : Prop :=
  exists webhook c r,
    In (Ingest webhook c r) evs /\ wh_transaction_id webhook = t.

(** Every ingest call for [t] in the trace carries an amount the table
    accepts (a number, not NaN). *)
Definition storable_ingests (t : string) (evs : list event) : Prop :=
  forall webhook c r,
    In (Ingest webhook c r) evs -> wh_transaction_id webhook = t ->
    is_nan (wh_amount webhook) = false.

End Service.
Export Service.

(** ** test_service.py and demo.py: what the clients compute from responses *)

Module Clients.

(** The webhook is posted once per pair of clock readings, one call after the
    other (the [for i in range(3)] loops of the test and of the demo). *)
Fixpoint post_all (webhook : TransactionWebhook)
    (clocks : list (datetime * datetime)) (db : Table)
  : list Received * Table :=
  match clocks with
  | [] => ([], db)
  | (now_created, now_received) :: clocks' =>
      let '(rc, db1) := receive_webhook webhook now_created now_received db in
      let '(rcs, db2) := post_all webhook clocks' db1 in
      (rc :: rcs, db2)
  end.

(** [t for t in transactions if t['transaction_id'] == transaction_id] *)
Definition duplicate_txns (transactions : list TransactionResponse)
    (transaction_id : string) : list TransactionResponse :=
  filter (fun t => String.eqb (Database.transaction_id t) transaction_id)
    transactions.

(** test_duplicate_prevention: the responses of the posts, then the rows of the
    listing that carry the identifier. *)
Definition test_duplicate_prevention (webhook : TransactionWebhook)
    (clocks : list (datetime * datetime)) (db : Table)
  : list Received * list TransactionResponse :=
  let '(rcs, db') := post_all webhook clocks db in
  (rcs, duplicate_txns (list_transactions db') (wh_transaction_id webhook)).

(** A Python dict from status to count: its items in insertion order. *)
Definition Counts := list (string * nat).

Fixpoint dict_get (k : string) (d : Counts) : option nat :=
  match d with
  | [] => None
  | (k', v) :: d' => if String.eqb k' k then Some v else dict_get k d'
  end.

(** d[k] = v: the value of a known key is replaced where it is, a new key
    goes last. *)
Fixpoint dict_set (k : string) (v : nat) (d : Counts) : Counts :=
  match d with
  | [] => [(k, v)]
  | (k', v') :: d' =>
      if String.eqb k' k then (k', v) :: d' else (k', v') :: dict_set k v d'
  end.

(** The body of the grouping loop of demo_list_all:
      status = txn['status']
      if status not in statuses: statuses[status] = 0
      statuses[status] += 1
    [None] stands for the KeyError of the last line. *)
Definition count_status (statuses : Counts) (txn : TransactionResponse)
  : option Counts :=
  let status := Database.status txn in
  let statuses :=
    match dict_get status statuses with
    | None => dict_set status 0 statuses
    | Some _ => statuses
    end in
  match dict_get status statuses with
  | Some n => Some (dict_set status (n + 1) statuses)
  | None => None
  end.

(** statuses = {}; for txn in transactions: ... *)
Fixpoint group_from (statuses : Counts) (transactions : list TransactionResponse)
  : option Counts :=
  match transactions with
  | [] => Some statuses
  | txn :: rest =>
      match count_status statuses txn with
      | Some statuses' => group_from statuses' rest
      | None => None
      end
  end.

Definition group_by_status (transactions : list TransactionResponse)
  : option Counts :=
  group_from [] transactions.

(** How many of the transactions carry the status [st]. *)
Definition with_status_count (st : string)
    (transactions : list TransactionResponse) : nat :=
  List.length (filter (fun t => String.eqb (Database.status t) st) transactions).

Definition total (d : Counts) : nat := fold_right (fun kv n => (snd kv + n)%nat) 0%nat d.

(** [d] holds, for each status met in [l], how many of [l] carry it, and
    nothing else. *)
Definition represents (d : Counts) (l : list TransactionResponse) : Prop :=
  NoDup (map fst d)
  /\ total d = List.length l
  /\ forall st,
       dict_get st d
       = if Nat.eqb (with_status_count st l) 0 then None
         else Some (with_status_count st l).

End Clients.
Export Clients.

(** ** The record invariants of the data model, as predicates on a row *)

Definition timestamps_match_status (r : Transaction) : Prop :=
  (processed_at r <> None <-> status r = "PROCESSED")
  /\ (error_message r <> None <-> status r = "FAILED").

Definition processing_flag_ok (r : Transaction) : Prop :=
  is_processing r = true -> status r = "PROCESSING".

Definition status_known (r : Transaction) : Prop :=
  status r = "PROCESSING" \/ status r = "PROCESSED" \/ status r = "FAILED".

(** The columns written once, at insertion. *)
Definition same_payload (r r' : Transaction) : Prop :=
  transaction_id r' = transaction_id r
  /\ source_account r' = source_account r
  /\ destination_account r' = destination_account r
  /\ amount r' = amount r
  /\ currency r' = currency r
  /\ created_at r' = created_at r
  /\ webhook_received_at r' = webhook_received_at r.

(** The nullable column that goes with a status or with the flag is set. *)
Definition columns_set (r : Transaction) : Prop :=
  (status r = "PROCESSED" -> processed_at r <> None)
  /\ (status r = "FAILED" -> error_message r <> None)
  /\ (is_processing r = true -> processing_started_at r <> None).

(** An assignment that leaves the primary key alone. *)
Definition keeps_key (g : Transaction -> Transaction) : Prop :=
  forall r, transaction_id (g r) = transaction_id r.

(** [a] may be listed before [b] when it was received no earlier. *)
Definition received_no_earlier (a b : TransactionResponse) : Prop :=
  webhook_received_at b <= webhook_received_at a.

Definition newest_first (l : list TransactionResponse) : Prop :=
  StronglySorted received_no_earlier l.

(** What every row satisfies whatever runs are started: a known status, and
    the processing flag raised only on a PROCESSING row. *)
Definition row_ok (r : Transaction) : Prop :=
  status_known r /\ processing_flag_ok r.

Definition table_ok (db : Table) : Prop :=
  NoDup (keys db) /\ Forall row_ok db.

(** A row that a pending run still has to take to a terminal status. *)
Definition pending_row (r : Transaction) : Prop :=
  status r = "PROCESSING" /\ processed_at r = None /\ error_message r = None.

(** What the service satisfies when every run was started by a first-time
    ingest: at most one run per identifier, each on a pending row. *)
Definition dispatch_ok (s : State) : Prop :=
  NoDup (keys (table s))
  /\ NoDup (map fst (tasks s))
  /\ (forall t ph, In (t, ph) (tasks s) ->
       exists r, query_first t (table s) = Some r /\ pending_row r)
  /\ Forall timestamps_match_status (table s).

(** ** Sample data *)

Definition t1_webhook : TransactionWebhook :=
  mkWebhook "t1" "a" "b" 100%float "USD".

Definition t1_processed : Transaction :=
  mkTransaction "t1" "a" "b" 100%float "USD" "PROCESSED" 10 (Some 50) 11
    (Some 20) false None.

Definition locked : Fault :=
  mkFault AtLoad (Thrown "OperationalError: database is locked") HandlerRuns.

(** The awaited step is cancelled. *)
Definition cancelled : Fault :=
  mkFault AtSleep (ThrownBase "CancelledError") HandlerRuns.


(** A notification whose amount is NaN. *)
Definition t1_nan_webhook : TransactionWebhook :=
  mkWebhook "t1" "a" "b" nan "USD".

Definition t1_pending : Transaction :=
  mkTransaction "t1" "a" "b" 100%float "USD" "PROCESSING" 10 None 11 None false
    None.

Definition t1_sleeping : Transaction :=
  mkTransaction "t1" "a" "b" 100%float "USD" "PROCESSING" 10 None 11 (Some 20)
    true None.

(** The row "t1" while its run sleeps. *)
Definition t1_in_flight : State :=
  mkState [t1_sleeping] [("t1", Sleeping)].

(** The row "t1" stored, its run started and not yet scheduled. *)
Definition t1_queued : State :=
  mkState [t1_pending] [("t1", Queued)].

Definition t2_webhook : TransactionWebhook :=
  mkWebhook "t2" "c" "d" 2500.5%float "INR".

(** The run of "t1" with a first notification for "t2" in between. *)
Definition t1_then_t2 : list event :=
  [Begin "t1" 20 None; Ingest t2_webhook 30 31; Finish "t1" 50 None].

Definition t1_t2_done : State :=
  mkState
    [t1_processed;
     mkTransaction "t2" "c" "d" 2500.5%float "INR" "PROCESSING" 30 None 31 None
       false None]
    [("t2", Queued)].

(** Three notifications for "t1", with the run of the first one in between. *)
Definition t1_three_times : list event :=
  [Ingest t1_webhook 10 11; Begin "t1" 20 None; Ingest t1_webhook 12 13;
   Finish "t1" 50 None; Ingest t1_webhook 60 61].

Definition t1_done : State :=
  mkState [t1_processed] [].

(** A second run is started for "t1" while the first one sleeps; its initial
    query raises and its handler marks the row failed; then the first run
    wakes up and marks the row processed. *)
Definition t1_two_runs : list event :=
  [Ingest t1_webhook 10 11; Begin "t1" 20 None; Invoke "t1";
   Begin "t1" 21 (Some locked); Finish "t1" 50 None].

Definition t1_processed_with_error : Transaction :=
  mkTransaction "t1" "a" "b" 100%float "USD" "PROCESSED" 10 (Some 50) 11
    (Some 20) false (Some "OperationalError: database is locked").

(** ** Facts about the table *)

Section TableFacts.

Lemma has_key_true (t : string) (r : Transaction) :
  has_key t r = true <-> transaction_id r = t.
Proof. unfold has_key. apply String.eqb_eq. Qed.

Lemma has_key_false (t : string) (r : Transaction) :
  has_key t r = false <-> transaction_id r <> t.
Proof. unfold has_key. apply String.eqb_neq. Qed.

Lemma query_first_some (t : string) (db : Table) (r : Transaction) :
  query_first t db = Some r -> In r db /\ transaction_id r = t.
Proof.
  unfold query_first. intros H. apply find_some in H.
  destruct H as [Hin Hk]. split; [exact Hin | now apply has_key_true].
Qed.

Lemma query_first_none (t : string) (db : Table) :
  query_first t db = None <-> ~ In t (keys db).
Proof.
  unfold query_first, keys. induction db as [|x db IH]; simpl.
  - tauto.
  - destruct (has_key t x) eqn:Hk.
    + apply has_key_true in Hk. split; [discriminate | intros H; exfalso; apply H; now left].
    + apply has_key_false in Hk. rewrite IH. tauto.
Qed.

Lemma query_first_present (t : string) (db : Table) :
  In t (keys db) -> exists r, query_first t db = Some r.
Proof.
  intros Hin. destruct (query_first t db) as [r|] eqn:Hq.
  - now exists r.
  - apply query_first_none in Hq. contradiction.
Qed.

Lemma query_first_keys (t : string) (db : Table) (r : Transaction) :
  query_first t db = Some r -> In t (keys db).
Proof.
  intros H. apply query_first_some in H. destruct H as [Hin <-].
  unfold keys. now apply in_map.
Qed.

Lemma query_first_app (t : string) (db db' : Table) :
  query_first t (db ++ db')
  = match query_first t db with
    | Some r => Some r
    | None => query_first t db'
    end.
Proof.
  unfold query_first. induction db as [|x db IH]; simpl.
  - reflexivity.
  - destruct (has_key t x); [reflexivity | exact IH].
Qed.

(** Under the primary-key constraint the row of a key is the one the query
    returns. *)
Lemma key_unique (t : string) (db : Table) (r r' : Transaction) :
  NoDup (keys db) -> query_first t db = Some r -> In r' db ->
  transaction_id r' = t -> r' = r.
Proof.
  unfold query_first, keys. induction db as [|x db IH]; simpl; intros Hnd Hq Hin Hk.
  - contradiction.
  - inversion Hnd as [|? ? Hx Hnd']; subst.
    destruct (has_key (transaction_id r') x) eqn:Hkx.
    + inversion Hq; subst x. destruct Hin as [->|Hin]; [reflexivity|].
      apply has_key_true in Hkx. exfalso. apply Hx. rewrite Hkx.
      now apply in_map.
    + destruct Hin as [->|Hin].
      * apply has_key_false in Hkx. congruence.
      * now apply IH.
Qed.

Lemma count_key_absent (t : string) (db : Table) :
  ~ In t (keys db) -> count_key t db = 0%nat.
Proof.
  unfold count_key, keys. induction db as [|x db IH]; simpl; intros Hn.
  - reflexivity.
  - destruct (has_key t x) eqn:Hk.
    + apply has_key_true in Hk. exfalso. apply Hn. now left.
    + apply IH. intros H. apply Hn. now right.
Qed.

Lemma count_key_one (t : string) (db : Table) :
  NoDup (keys db) -> In t (keys db) -> count_key t db = 1%nat.
Proof.
  unfold count_key, keys. induction db as [|x db IH]; simpl; intros Hnd Hin.
  - contradiction.
  - inversion Hnd as [|? ? Hx Hnd']; subst.
    destruct (has_key t x) eqn:Hk.
    + apply has_key_true in Hk. subst t. simpl.
      f_equal. now apply (count_key_absent (transaction_id x) db).
    + apply has_key_false in Hk. destruct Hin as [E|Hin]; [congruence|].
      now apply IH.
Qed.

Lemma keys_update (t : string) (g : Transaction -> Transaction) (db : Table) :
  keeps_key g -> keys (update t g db) = keys db.
Proof.
  intros Hg. unfold keys, update. rewrite map_map. apply map_ext.
  intros r. destruct (has_key t r); [apply Hg | reflexivity].
Qed.

Lemma update_id (t : string) (db : Table) : update t (fun r => r) db = db.
Proof.
  unfold update. rewrite <- (map_id db) at 2. apply map_ext.
  intros r. now destruct (has_key t r).
Qed.

Lemma query_first_update (t u : string) (g : Transaction -> Transaction)
    (db : Table) :
  keeps_key g ->
  query_first t (update u g db)
  = option_map (fun r => if has_key u r then g r else r) (query_first t db).
Proof.
  intros Hg. unfold query_first, update. induction db as [|x db IH]; simpl.
  - reflexivity.
  - assert (E : has_key t (if has_key u x then g x else x) = has_key t x).
    { unfold has_key. destruct (String.eqb (transaction_id x) u); [now rewrite Hg | reflexivity]. }
    rewrite E. destruct (has_key t x); [reflexivity | exact IH].
Qed.

Lemma query_first_update_same (t : string) (g : Transaction -> Transaction)
    (db : Table) (r : Transaction) :
  keeps_key g -> query_first t db = Some r ->
  query_first t (update t g db) = Some (g r).
Proof.
  intros Hg Hq. rewrite query_first_update by assumption. rewrite Hq. simpl.
  apply query_first_some in Hq. destruct Hq as [_ Hk].
  apply has_key_true in Hk. now rewrite Hk.
Qed.

Lemma in_update (t : string) (g : Transaction -> Transaction) (db : Table)
    (r' : Transaction) :
  In r' (update t g db) ->
  exists r, In r db /\ r' = (if has_key t r then g r else r).
Proof.
  unfold update. intros H. apply in_map_iff in H.
  destruct H as [r [E Hin]]. exists r. split; [assumption | now symmetry].
Qed.

Lemma keeps_key_mark_processing (now : datetime) : keeps_key (mark_processing now).
Proof. intros r. reflexivity. Qed.

Lemma keeps_key_mark_processed (now : datetime) : keeps_key (mark_processed now).
Proof. intros r. reflexivity. Qed.

Lemma keeps_key_mark_failed (e : Exception) : keeps_key (mark_failed e).
Proof. intros r. reflexivity. Qed.

End TableFacts.

#[local] Hint Resolve keeps_key_mark_processing keeps_key_mark_processed
  keeps_key_mark_failed : core.

(** ** What one segment of a run does to the table *)

Ltac reduce_segment :=
  repeat (cbn [pending rows fst snd throw]; cbv beta iota;
          match goal with
          | H : ?q = _ |- context [match ?q with _ => _ end] => rewrite H
          end);
  cbn [pending rows fst snd throw]; cbv beta iota.

Ltac unfold_segment :=
  unfold process_transaction_begin, process_transaction_resume, in_session,
    try_except, begin_body, resume_body, on_exception, bind, query, commit,
    sleep, ret.

Ltac close_segment_case :=
  first
    [ left; solve [auto]
    | right; left; solve [repeat split; eauto]
    | right; right; left;
      solve [split; [reflexivity | do 2 eexists; repeat split; eauto]]
    | right; right; right; solve [split; [eexists; eauto | reflexivity]] ].

Section SegmentFacts.

Variables (f : option Fault) (t : string) (now : datetime) (db : Table).

(** Up to the sleep: nothing is written, or the row is marked as processing
    (only when it was loaded in a non-terminal status), or the handler marks
    it failed (only after the initial query raised an [Exception]), or an
    exception leaves the run and nothing is written. *)
Lemma begin_cases :
  let '(out, db') := process_transaction_begin f t now db in
  (out = Ok Finished /\ db' = db)
  \/ (out = Ok Awaiting /\ db' = update t (mark_processing now) db
      /\ fault_at f AtLoad = None /\ fault_at f AtMarkCommit = None
      /\ exists r, query_first t db = Some r /\ is_terminal (status r) = false)
  \/ (out = Ok Finished
      /\ exists e r, db' = update t (mark_failed e) db /\ query_first t db = Some r
         /\ fault_at f AtLoad = Some (Thrown e))
  \/ ((exists e, out = Raise e \/ out = RaiseBase e) /\ db' = db).
Proof.
  unfold_segment.
  destruct (fault_at f AtLoad) as [[e1|e1]|] eqn:Hl;
    destruct (fault_at f AtMarkCommit) as [[e2|e2]|] eqn:Hm;
    destruct (reload_fault f) as [[e3|e3]|] eqn:Hr;
    destruct (persist_fault f) as [[e4|e4]|] eqn:Hp;
    destruct (query_first t db) as [r|] eqn:Hq;
    reduce_segment;
    try (destruct (is_terminal (status r)) eqn:Ht; reduce_segment);
    close_segment_case.
Qed.

(** From the sleep on: the row is marked processed, or the handler marks it
    failed (only after the awaited step raised an [Exception]), or nothing is
    written. *)
Lemma resume_cases :
  let '(out, db') := process_transaction_resume f t now db in
  (out = Ok Finished /\ db' = db /\ query_first t db = None)
  \/ (out = Ok Finished /\ db' = update t (mark_processed now) db
      /\ fault_at f AtSleep = None /\ fault_at f AtFinalCommit = None
      /\ exists r, query_first t db = Some r)
  \/ (out = Ok Finished
      /\ exists e r, db' = update t (mark_failed e) db /\ query_first t db = Some r
         /\ fault_at f AtSleep = Some (Thrown e))
  \/ ((exists e, out = Raise e \/ out = RaiseBase e) /\ db' = db).
Proof.
  unfold_segment.
  destruct (fault_at f AtSleep) as [[e1|e1]|] eqn:Hs;
    destruct (fault_at f AtFinalCommit) as [[e2|e2]|] eqn:Hc;
    destruct (reload_fault f) as [[e3|e3]|] eqn:Hr;
    destruct (persist_fault f) as [[e4|e4]|] eqn:Hp;
    destruct (query_first t db) as [r|] eqn:Hq;
    reduce_segment;
    close_segment_case.
Qed.

End SegmentFacts.

(** ** The idempotency gate: first sighting of an identifier *)

(** C2, as stated, fails: on an empty table the row stored for "t1" does not
    carry the status RECEIVED. *)
Lemma C2_received_status_not_stored :
  query_first "t1" [] = None
  /\ ~ (exists tr,
          query_first "t1" (snd (receive_webhook t1_webhook 10 11 [])) = Some tr
          /\ status tr = "RECEIVED").
Proof.
  split; [reflexivity|]. intros [tr [Hq Hs]]. simpl in Hq.
  inversion Hq; subst tr. discriminate Hs.
Qed.

(** C2 (amended): when the identifier of a notification is absent from the
    table and its amount is not NaN, [receive_webhook] appends one row whose
    status is PROCESSING, whose payload columns are those of the notification,
    whose flag and nullable columns are unset, answers with the 202
    acknowledgment and starts one background run for the identifier. *)
Theorem C2_first_ingest_creates_processing_row :
  forall (webhook : TransactionWebhook) (now_created now_received : datetime)
         (db : Table),
    query_first (wh_transaction_id webhook) db = None ->
    is_nan (wh_amount webhook) = false ->
    exists tr,
      snd (receive_webhook webhook now_created now_received db) = db ++ [tr]
      /\ query_first (wh_transaction_id webhook)
           (snd (receive_webhook webhook now_created now_received db)) = Some tr
      /\ transaction_id tr = wh_transaction_id webhook
      /\ status tr = "PROCESSING"
      /\ source_account tr = wh_source_account webhook
      /\ destination_account tr = wh_destination_account webhook
      /\ amount tr = wh_amount webhook
      /\ currency tr = wh_currency webhook
      /\ created_at tr = now_created
      /\ webhook_received_at tr = now_received
      /\ is_processing tr = false
      /\ processed_at tr = None
      /\ processing_started_at tr = None
      /\ error_message tr = None
      /\ response (fst (receive_webhook webhook now_created now_received db))
         = Ok (acknowledged (wh_transaction_id webhook))
      /\ dispatched (fst (receive_webhook webhook now_created now_received db))
         = Some (wh_transaction_id webhook).
Proof.
  intros webhook c r db Habs Hnan.
  unfold receive_webhook, add_commit. simpl. rewrite Habs, Hnan. simpl.
  eexists. split; [reflexivity|]. split.
  - rewrite query_first_app, Habs. unfold query_first, has_key. simpl.
    now rewrite String.eqb_refl.
  - repeat split; reflexivity.
Qed.

Lemma C2_first_ingest_witness :
  query_first (wh_transaction_id t1_webhook) [] = None
  /\ is_nan (wh_amount t1_webhook) = false
  /\ exists tr,
       snd (receive_webhook t1_webhook 10 11 []) = [] ++ [tr]
       /\ query_first (wh_transaction_id t1_webhook)
            (snd (receive_webhook t1_webhook 10 11 [])) = Some tr
       /\ transaction_id tr = wh_transaction_id t1_webhook
       /\ status tr = "PROCESSING"
       /\ source_account tr = wh_source_account t1_webhook
       /\ destination_account tr = wh_destination_account t1_webhook
       /\ amount tr = wh_amount t1_webhook
       /\ currency tr = wh_currency t1_webhook
       /\ created_at tr = 10
       /\ webhook_received_at tr = 11
       /\ is_processing tr = false
       /\ processed_at tr = None
       /\ processing_started_at tr = None
       /\ error_message tr = None
       /\ response (fst (receive_webhook t1_webhook 10 11 []))
          = Ok (acknowledged (wh_transaction_id t1_webhook))
       /\ dispatched (fst (receive_webhook t1_webhook 10 11 []))
          = Some (wh_transaction_id t1_webhook).
Proof.
  split; [reflexivity|]. split; [reflexivity|].
  apply (C2_first_ingest_creates_processing_row t1_webhook 10 11 []);
    reflexivity.
Defined.

(** ** The terminal guard of the background processor *)

(** A run whose initial query goes through leaves a terminal row, and the
    whole table, as it found them. *)
Lemma terminal_guard (f : option Fault) (t : string) (started finished : datetime)
    (db : Table) (r : Transaction) :
  fault_at f AtLoad = None ->
  query_first t db = Some r ->
  is_terminal (status r) = true ->
  process_transaction f t started finished db = (Ok Finished, db).
Proof.
  intros Hl Hq Ht.
  unfold process_transaction. unfold_segment. reduce_segment. reflexivity.
Qed.

(** C3 at the failing input: the row "t1" is PROCESSED; a later run for "t1"
    whose initial query raises reaches the handler, which reloads the row and
    overwrites it: status FAILED, [error_message] set, [processed_at] kept. *)
Theorem C3_terminal_row_overwritten_by_handler :
  query_first "t1" [t1_processed] = Some t1_processed
  /\ is_terminal (status t1_processed) = true
  /\ process_transaction (Some locked) "t1" 60 90 [t1_processed]
     = (Ok Finished,
        [mkTransaction "t1" "a" "b" 100%float "USD" "FAILED" 10 (Some 50) 11
           (Some 20) false (Some "OperationalError: database is locked")])
  /\ snd (process_transaction (Some locked) "t1" 60 90 [t1_processed])
     <> [t1_processed].
Proof.
  repeat split; try reflexivity. vm_compute. discriminate.
Qed.


(** ** Runs on a row in a non-terminal status *)

Lemma begin_without_fault (f : option Fault) (t : string) (now : datetime)
    (db : Table) (r : Transaction) :
  fault_at f AtLoad = None -> fault_at f AtMarkCommit = None ->
  query_first t db = Some r -> is_terminal (status r) = false ->
  process_transaction_begin f t now db
  = (Ok Awaiting, update t (mark_processing now) db).
Proof.
  intros Hl Hm Hq Ht. unfold_segment. reduce_segment. reflexivity.
Qed.

Lemma resume_without_fault (f : option Fault) (t : string) (now : datetime)
    (db : Table) (r : Transaction) :
  fault_at f AtSleep = None -> fault_at f AtFinalCommit = None ->
  query_first t db = Some r ->
  process_transaction_resume f t now db
  = (Ok Finished, update t (mark_processed now) db).
Proof.
  intros Hs Hc Hq. unfold_segment. reduce_segment. reflexivity.
Qed.


Lemma process_transaction_unfold (f : option Fault) (t : string)
    (started finished : datetime) (db : Table) :
  process_transaction f t started finished db
  = match process_transaction_begin f t started db with
    | (Ok Awaiting, db1) => process_transaction_resume f t finished db1
    | (Ok Finished, db1) => (Ok Finished, db1)
    | (Raise e, db1) => (Raise e, db1)
    | (RaiseBase e, db1) => (RaiseBase e, db1)
    end.
Proof. reflexivity. Qed.

(** C4: a run on an existing row in a non-terminal status in which no fault is
    raised returns normally and leaves the row with status PROCESSED,
    [processed_at] set to the clock reading taken after the sleep and
    [is_processing] false.  This holds for the run executed in one piece, and
    for the run that sleeps (first segment) and wakes up (second segment) on
    any later table that still holds the row. *)
Theorem C4_fault_free_run_marks_processed :
  forall (t : string) (started finished : datetime) (db : Table)
         (r : Transaction),
    query_first t db = Some r ->
    is_terminal (status r) = false ->
    (fst (process_transaction None t started finished db) = Ok Finished
     /\ exists r',
          query_first t (snd (process_transaction None t started finished db))
          = Some r'
          /\ status r' = "PROCESSED"
          /\ processed_at r' = Some finished
          /\ is_processing r' = false)
    /\ fst (process_transaction_begin None t started db) = Ok Awaiting
    /\ forall (db2 : Table) (r2 : Transaction),
         query_first t db2 = Some r2 ->
         fst (process_transaction_resume None t finished db2) = Ok Finished
         /\ exists r3,
              query_first t (snd (process_transaction_resume None t finished db2))
              = Some r3
              /\ status r3 = "PROCESSED"
              /\ processed_at r3 = Some finished
              /\ is_processing r3 = false.
Proof.
  intros t started finished db r Hq Ht.
  assert (Hb := begin_without_fault None t started db r eq_refl eq_refl Hq Ht).
  assert (Hq1 := query_first_update_same t (mark_processing started) db r
                   (keeps_key_mark_processing started) Hq).
  assert (Hres : forall db2 r2, query_first t db2 = Some r2 ->
            fst (process_transaction_resume None t finished db2) = Ok Finished
            /\ exists r3,
                 query_first t (snd (process_transaction_resume None t finished db2))
                 = Some r3
                 /\ status r3 = "PROCESSED"
                 /\ processed_at r3 = Some finished
                 /\ is_processing r3 = false).
  { intros db2 r2 Hq2.
    rewrite (resume_without_fault None t finished db2 r2 eq_refl eq_refl Hq2).
    split; [reflexivity|]. exists (mark_processed finished r2).
    split; [|repeat split; reflexivity].
    simpl. now apply query_first_update_same. }
  split; [|split; [now rewrite Hb | exact Hres]].
  rewrite process_transaction_unfold, Hb.
  specialize (Hres _ _ Hq1).
  destruct (process_transaction_resume None t finished
              (update t (mark_processing started) db)) as [out db3].
  simpl in *. destruct Hres as [-> Hex]. split; [reflexivity | exact Hex].
Qed.

Lemma C4_fault_free_run_witness :
  fst (process_transaction None "t1" 20 50
         (snd (receive_webhook t1_webhook 10 11 []))) = Ok Finished
  /\ exists r',
       query_first "t1"
         (snd (process_transaction None "t1" 20 50
                 (snd (receive_webhook t1_webhook 10 11 [])))) = Some r'
       /\ status r' = "PROCESSED"
       /\ processed_at r' = Some 50
       /\ is_processing r' = false.
Proof.
  apply (C4_fault_free_run_marks_processed "t1" 20 50
           (snd (receive_webhook t1_webhook 10 11 [])) t1_pending);
    reflexivity.
Defined.




(** ** Listing *)

Lemma insert_desc_perm (r : Transaction) (l : list Transaction) :
  Permutation (r :: l) (insert_desc r l).
Proof.
  induction l as [|x l IH]; simpl.
  - apply Permutation_refl.
  - destruct (webhook_received_at x <=? webhook_received_at r).
    + apply Permutation_refl.
    + eapply perm_trans; [apply perm_swap|]. now apply perm_skip.
Qed.

Lemma insert_desc_sorted (r : Transaction) (l : list Transaction) :
  newest_first l -> newest_first (insert_desc r l).
Proof.
  unfold newest_first. induction l as [|x l IH]; simpl; intros Hs.
  - constructor; constructor.
  - inversion Hs as [|? ? Hl Hx]; subst.
    destruct (webhook_received_at x <=? webhook_received_at r) eqn:Hc.
    + apply Z.leb_le in Hc. constructor; [exact Hs|].
      constructor; [exact Hc|].
      eapply Forall_impl; [|exact Hx]. unfold received_no_earlier.
      intros a Ha. lia.
    + apply Z.leb_gt in Hc. constructor; [now apply IH|].
      eapply Permutation_Forall; [apply insert_desc_perm|].
      constructor; [unfold received_no_earlier; lia | exact Hx].
Qed.

Lemma list_transactions_perm (db : Table) :
  Permutation db (list_transactions db).
Proof.
  unfold list_transactions, model_validate. rewrite map_id.
  unfold order_by_webhook_received_at_desc.
  induction db as [|r db IH]; simpl.
  - apply perm_nil.
  - eapply perm_trans; [apply perm_skip, IH | apply insert_desc_perm].
Qed.

(** C8: whatever the table holds, [list_transactions] returns exactly its rows
    (each once, none missing), ordered by [webhook_received_at] descending. *)
Theorem C8_list_is_all_rows_newest_first :
  forall db : Table,
    Permutation db (list_transactions db)
    /\ newest_first (list_transactions db).
Proof.
  intros db. split; [apply list_transactions_perm|].
  unfold list_transactions, model_validate.
  rewrite map_id. unfold order_by_webhook_received_at_desc.
  induction db as [|r db IH]; simpl.
  - constructor.
  - now apply insert_desc_sorted.
Qed.

(** ** Invariants of the running service *)

Lemma Forall_update (P : Transaction -> Prop) (t : string)
    (g : Transaction -> Transaction) (db : Table) :
  Forall P db ->
  (forall r, In r db -> transaction_id r = t -> P r -> P (g r)) ->
  Forall P (update t g db).
Proof.
  intros Hall Hg. apply Forall_forall. intros r' Hin.
  apply in_update in Hin. destruct Hin as [r [Hin ->]].
  rewrite Forall_forall in Hall.
  destruct (has_key t r) eqn:Hk; [|now apply Hall].
  apply has_key_true in Hk. apply Hg; auto.
Qed.

Lemma non_terminal_known (r : Transaction) :
  status_known r -> is_terminal (status r) = false -> status r = "PROCESSING".
Proof.
  intros [H | [H | H]] Ht; [exact H | |]; rewrite H in Ht; discriminate Ht.
Qed.

Lemma receive_webhook_cases (webhook : TransactionWebhook)
    (now_created now_received : datetime) (db : Table) :
  (exists r, query_first (wh_transaction_id webhook) db = Some r
     /\ receive_webhook webhook now_created now_received db
        = (mkReceived (Ok (acknowledged (wh_transaction_id webhook))) None, db))
  \/ (query_first (wh_transaction_id webhook) db = None
      /\ is_nan (wh_amount webhook) = false
      /\ exists tr,
           receive_webhook webhook now_created now_received db
           = (mkReceived (Ok (acknowledged (wh_transaction_id webhook)))
                (Some (wh_transaction_id webhook)), db ++ [tr])
           /\ transaction_id tr = wh_transaction_id webhook
           /\ pending_row tr /\ is_processing tr = false
           /\ amount tr = wh_amount webhook
           /\ webhook_received_at tr = now_received)
  \/ (query_first (wh_transaction_id webhook) db = None
      /\ is_nan (wh_amount webhook) = true
      /\ receive_webhook webhook now_created now_received db
         = (mkReceived
              (Raise "IntegrityError: NOT NULL constraint failed: transactions.amount")
              None, db)).
Proof.
  unfold receive_webhook, add_commit. simpl.
  destruct (query_first (wh_transaction_id webhook) db) as [r|] eqn:Hq.
  - left. exists r. auto.
  - destruct (is_nan (wh_amount webhook)) eqn:Hnan.
    + right; right. auto.
    + right; left. split; [reflexivity|]. split; [reflexivity|].
      eexists. split; [reflexivity|]. repeat split; reflexivity.
Qed.

Lemma keys_app (db db' : Table) : keys (db ++ db') = keys db ++ keys db'.
Proof. unfold keys. apply map_app. Qed.

Lemma NoDup_snoc {A} (l : list A) (x : A) :
  NoDup l -> ~ In x l -> NoDup (l ++ [x]).
Proof.
  intros Hnd Hx. apply NoDup_app; [exact Hnd | repeat constructor; auto |].
  intros a Ha [<-|[]]. contradiction.
Qed.

Lemma pending_row_ok (r : Transaction) :
  pending_row r -> is_processing r = false -> row_ok r.
Proof.
  intros [Hs _] Hp. split; [now left|]. intros H. congruence.
Qed.

(** Every step keeps the primary key unique and every row well-formed. *)
Lemma step_table_ok (s s' : State) (ev : event) :
  table_ok (table s) -> step s ev = Some s' -> table_ok (table s').
Proof.
  intros [Hnd Hall] Hstep. destruct ev as [w c r | t | t now f | t now f];
    simpl in Hstep.
  - destruct (receive_webhook_cases w c r (table s))
      as [[r0 [Hq E]] | [[Hq [_ [tr [E [Hid [Hp [Hf _]]]]]]] | [Hq [_ E]]]];
      rewrite E in Hstep; inversion Hstep; subst s'; simpl.
    + now split.
    + split.
      * rewrite keys_app. simpl. apply NoDup_snoc; [exact Hnd|].
        rewrite Hid. now apply query_first_none.
      * apply Forall_app. split; [exact Hall|].
        constructor; [now apply pending_row_ok | constructor].
    + now split.
  - inversion Hstep; subst s'. simpl. now split.
  - destruct (take t Queued (tasks s)) as [rest|]; [|discriminate].
    pose proof (begin_cases f t now (table s)) as Hc.
    destruct (process_transaction_begin f t now (table s)) as [out db'].
    inversion Hstep; subst s'; simpl. clear Hstep.
    destruct Hc as [[_ ->] | [[_ [-> [_ [_ [r [Hq Ht]]]]]]
                   | [[_ [e [r [-> _]]]] | [_ ->]]]].
    + now split.
    + split; [now rewrite keys_update|].
      apply Forall_update; [exact Hall|]. intros r' Hin Hk [Hkn Hfl].
      assert (r' = r) by (eapply key_unique; eauto). subst r'.
      split; [exact Hkn|]. intros _. simpl. now apply non_terminal_known.
    + split; [now rewrite keys_update|].
      apply Forall_update; [exact Hall|]. intros r' _ _ _.
      split; [right; right; reflexivity | intros H; discriminate H].
    + now split.
  - destruct (take t Sleeping (tasks s)) as [rest|]; [|discriminate].
    pose proof (resume_cases f t now (table s)) as Hc.
    destruct (process_transaction_resume f t now (table s)) as [out db'].
    inversion Hstep; subst s'; simpl. clear Hstep.
    destruct Hc as [[_ [-> _]] | [[_ [-> _]]
                   | [[_ [e [r [-> _]]]] | [_ ->]]]].
    + now split.
    + split; [now rewrite keys_update|].
      apply Forall_update; [exact Hall|]. intros r' _ _ _.
      split; [right; left; reflexivity | intros H; discriminate H].
    + split; [now rewrite keys_update|].
      apply Forall_update; [exact Hall|]. intros r' _ _ _.
      split; [right; right; reflexivity | intros H; discriminate H].
    + now split.
Qed.

(** An identifier, once stored, stays stored. *)
Lemma step_keeps_keys (s s' : State) (ev : event) (t : string) :
  step s ev = Some s' -> In t (keys (table s)) -> In t (keys (table s')).
Proof.
  intros Hstep Hin. destruct ev as [w c r | u | u now f | u now f];
    simpl in Hstep.
  - destruct (receive_webhook_cases w c r (table s))
      as [[r0 [Hq E]] | [[Hq [_ [tr [E _]]]] | [Hq [_ E]]]];
      rewrite E in Hstep; inversion Hstep; subst s'; simpl;
      [exact Hin | | exact Hin].
    rewrite keys_app. apply in_or_app. now left.
  - inversion Hstep; subst s'. exact Hin.
  - destruct (take u Queued (tasks s)) as [rest|]; [|discriminate].
    pose proof (begin_cases f u now (table s)) as Hc.
    destruct (process_transaction_begin f u now (table s)) as [out db'].
    inversion Hstep; subst s'; simpl. clear Hstep.
    destruct Hc as [[_ ->] | [[_ [-> _]] | [[_ [e [r [-> _]]]] | [_ ->]]]];
      rewrite ?keys_update by auto; exact Hin.
  - destruct (take u Sleeping (tasks s)) as [rest|]; [|discriminate].
    pose proof (resume_cases f u now (table s)) as Hc.
    destruct (process_transaction_resume f u now (table s)) as [out db'].
    inversion Hstep; subst s'; simpl. clear Hstep.
    destruct Hc as [[_ [-> _]] | [[_ [-> _]]
                   | [[_ [e [r [-> _]]]] | [_ ->]]]];
      rewrite ?keys_update by auto; exact Hin.
Qed.

Lemma run_table_ok (evs : list event) (s s' : State) :
  table_ok (table s) -> run evs s = Some s' -> table_ok (table s').
Proof.
  revert s. induction evs as [|ev evs IH]; simpl; intros s Hok Hrun.
  - now inversion Hrun; subst.
  - destruct (step s ev) as [s1|] eqn:Hstep; [|discriminate].
    eapply IH; [|exact Hrun]. eapply step_table_ok; eauto.
Qed.

Lemma run_keeps_keys (evs : list event) (s s' : State) (t : string) :
  run evs s = Some s' -> In t (keys (table s)) -> In t (keys (table s')).
Proof.
  revert s. induction evs as [|ev evs IH]; simpl; intros s Hrun Hin.
  - now inversion Hrun; subst.
  - destruct (step s ev) as [s1|] eqn:Hstep; [|discriminate].
    eapply IH; [exact Hrun|]. eapply step_keeps_keys; eauto.
Qed.

Lemma run_app (evs1 evs2 : list event) (s s' : State) :
  run (evs1 ++ evs2) s = Some s' ->
  exists s1, run evs1 s = Some s1 /\ run evs2 s1 = Some s'.
Proof.
  revert s. induction evs1 as [|ev evs1 IH]; simpl; intros s Hrun.
  - now exists s.
  - destruct (step s ev) as [s1|]; [|discriminate]. now apply IH.
Qed.

Lemma reachable_table_ok (s : State) : Reachable s -> table_ok (table s).
Proof.
  intros [evs Hrun]. eapply run_table_ok; [|exact Hrun].
  split; [constructor | constructor].
Qed.

Lemma step_keys (s s' : State) (ev : event) :
  step s ev = Some s' ->
  keys (table s') = keys (table s)
  \/ exists t, keys (table s') = keys (table s) ++ [t] /\ ~ In t (keys (table s)).
Proof.
  intros Hstep. destruct ev as [w c r | u | u now f | u now f]; simpl in Hstep.
  - destruct (receive_webhook_cases w c r (table s))
      as [[r0 [Hq E]] | [[Hq [_ [tr [E [Hid _]]]]] | [Hq [_ E]]]];
      rewrite E in Hstep; inversion Hstep; subst s'; simpl;
      [now left | | now left].
    right. exists (wh_transaction_id w). rewrite keys_app. simpl. rewrite Hid.
    split; [reflexivity | now apply query_first_none].
  - inversion Hstep; subst s'. now left.
  - destruct (take u Queued (tasks s)) as [rest|]; [|discriminate].
    pose proof (begin_cases f u now (table s)) as Hc.
    destruct (process_transaction_begin f u now (table s)) as [out db'].
    inversion Hstep; subst s'; simpl. clear Hstep. left.
    destruct Hc as [[_ ->] | [[_ [-> _]] | [[_ [e [r [-> _]]]] | [_ ->]]]];
      rewrite ?keys_update by auto; reflexivity.
  - destruct (take u Sleeping (tasks s)) as [rest|]; [|discriminate].
    pose proof (resume_cases f u now (table s)) as Hc.
    destruct (process_transaction_resume f u now (table s)) as [out db'].
    inversion Hstep; subst s'; simpl. clear Hstep. left.
    destruct Hc as [[_ [-> _]] | [[_ [-> _]]
                   | [[_ [e [r [-> _]]]] | [_ ->]]]];
      rewrite ?keys_update by auto; reflexivity.
Qed.

Lemma run_keys_nodup (evs : list event) (s s' : State) :
  NoDup (keys (table s)) -> run evs s = Some s' -> NoDup (keys (table s')).
Proof.
  revert s. induction evs as [|ev evs IH]; simpl; intros s Hnd Hrun.
  - now inversion Hrun; subst.
  - destruct (step s ev) as [s1|] eqn:Hstep; [|discriminate].
    eapply IH; [|exact Hrun].
    destruct (step_keys _ _ _ Hstep) as [-> | [t [-> Hn]]];
      [exact Hnd | now apply NoDup_snoc].
Qed.

Lemma ingest_stores (s s' : State) (webhook : TransactionWebhook)
    (c r : datetime) :
  step s (Ingest webhook c r) = Some s' ->
  is_nan (wh_amount webhook) = false ->
  In (wh_transaction_id webhook) (keys (table s')).
Proof.
  simpl. intros Hstep Hnan.
  destruct (receive_webhook_cases webhook c r (table s))
    as [[r0 [Hq E]] | [[Hq [_ [tr [E [Hid _]]]]] | [Hq [Hn E]]]];
    [ | | congruence];
    rewrite E in Hstep; inversion Hstep; subst s'; simpl.
  - eapply query_first_keys; eauto.
  - rewrite keys_app. apply in_or_app. right. simpl. now left.
Qed.

Lemma ingests_stored (t : string) (evs : list event) (s s' : State) :
  ingests t evs -> storable_ingests t evs -> run evs s = Some s' ->
  In t (keys (table s')).
Proof.
  intros [w [c [r [Hin Hid]]]] Hst Hrun.
  assert (Hnan := Hst w c r Hin Hid).
  apply in_split in Hin. destruct Hin as [before [after ->]].
  apply run_app in Hrun. destruct Hrun as [s1 [_ Hrun]].
  cbn [run] in Hrun.
  destruct (step s1 (Ingest w c r)) as [s2|] eqn:Hstep; [|discriminate].
  eapply run_keeps_keys; [exact Hrun|]. subst t. eapply ingest_stores; eauto.
Qed.

(** ** Idempotent ingestion *)

(** C1, as stated, fails: a single notification for "t1" whose amount is NaN
    is refused by the NOT NULL constraint of [amount]; the call raises and
    the table holds no row for "t1". *)
Lemma C1_nan_amount_stores_no_row :
  response (fst (receive_webhook t1_nan_webhook 10 11 []))
  = Raise "IntegrityError: NOT NULL constraint failed: transactions.amount"
  /\ count_key "t1" (snd (receive_webhook t1_nan_webhook 10 11 [])) = 0%nat
  /\ run [Ingest t1_nan_webhook 10 11] initial = Some initial.
Proof. repeat split. Qed.

(** C1 (amended): take any trace of requests and background steps that starts
    on a table with unique identifiers and contains at least one ingest call
    for [t], every ingest call for [t] carrying an amount that is not NaN.
    Then the final table holds exactly one row for [t]; every ingest call for
    [t] in the trace raises nothing and answers with the same 202
    acknowledgment; and every such call that comes after an earlier one leaves
    the whole table as it was, whatever the row had become in between, and
    starts no run. *)
Theorem C1_repeated_ingest_is_idempotent :
  forall (s0 s : State) (evs : list event) (t : string),
    NoDup (keys (table s0)) ->
    run evs s0 = Some s ->
    ingests t evs ->
    storable_ingests t evs ->
    count_key t (table s) = 1%nat
    /\ forall (before after : list event) (webhook : TransactionWebhook)
              (c r : datetime) (s1 : State),
         evs = before ++ Ingest webhook c r :: after ->
         wh_transaction_id webhook = t ->
         run before s0 = Some s1 ->
         response (fst (receive_webhook webhook c r (table s1)))
         = Ok (acknowledged t)
         /\ (ingests t before ->
             snd (receive_webhook webhook c r (table s1)) = table s1
             /\ dispatched (fst (receive_webhook webhook c r (table s1))) = None).
Proof.
  intros s0 s evs t Hnd Hrun Hing Hst. split.
  - apply count_key_one.
    + eapply run_keys_nodup; eauto.
    + eapply ingests_stored; eauto.
  - intros before after w c r s1 -> Hid Hb.
    assert (Hnan : is_nan (wh_amount w) = false).
    { apply (Hst w c r); [apply in_or_app; right; now left | exact Hid]. }
    assert (Hst' : storable_ingests t before).
    { intros w' c' r' Hin Hid'.
      apply (Hst w' c' r'); [apply in_or_app; now left | exact Hid']. }
    subst t.
    destruct (receive_webhook_cases w c r (table s1))
      as [[r0 [Hq E]] | [[Hq [_ [tr [E _]]]] | [_ [Hn _]]]];
      [ | | congruence]; rewrite E; simpl.
    + split; [reflexivity|]. intros _. now split.
    + split; [reflexivity|]. intros Hprev. exfalso.
      apply query_first_none in Hq. apply Hq.
      eapply ingests_stored; eauto.
Qed.

Lemma C1_repeated_ingest_witness :
  count_key "t1" (table t1_done) = 1%nat
  /\ response (fst (receive_webhook t1_webhook 12 13 (table t1_in_flight)))
     = Ok (acknowledged "t1")
  /\ snd (receive_webhook t1_webhook 12 13 (table t1_in_flight))
     = table t1_in_flight.
Proof.
  assert (Hnd : NoDup (keys (table initial))) by constructor.
  assert (Hrun : run t1_three_times initial = Some t1_done) by reflexivity.
  assert (Hing : ingests "t1" t1_three_times).
  { exists t1_webhook, 10, 11. split; [now left | reflexivity]. }
  assert (Hst : storable_ingests "t1" t1_three_times).
  { intros w c r Hin _.
    destruct Hin as [E | [E | [E | [E | [E | []]]]]]; inversion E; reflexivity. }
  destruct (C1_repeated_ingest_is_idempotent initial t1_done t1_three_times "t1"
              Hnd Hrun Hing Hst) as [Hcount Hcalls].
  split; [exact Hcount|].
  destruct (Hcalls [Ingest t1_webhook 10 11; Begin "t1" 20 None]
              [Finish "t1" 50 None; Ingest t1_webhook 60 61]
              t1_webhook 12 13 t1_in_flight eq_refl eq_refl eq_refl)
    as [Hresp Hsame].
  split; [exact Hresp|]. apply Hsame.
  exists t1_webhook, 10, 11. split; [now left | reflexivity].
Defined.

(** ** Invariants of the rows *)

(** C7: in every state the service can reach from an empty table by ingest
    calls and background runs, started by an ingest or otherwise, faulting or
    not, a row whose [is_processing] is true has status PROCESSING. *)
Theorem C7_processing_flag_implies_processing_status :
  forall s : State,
    Reachable s ->
    forall r : Transaction,
      In r (table s) -> is_processing r = true -> status r = "PROCESSING".
Proof.
  intros s Hreach r Hin Hflag.
  destruct (reachable_table_ok s Hreach) as [_ Hall].
  rewrite Forall_forall in Hall. destruct (Hall r Hin) as [_ Hok].
  now apply Hok.
Qed.

Lemma C7_processing_flag_witness :
  Reachable t1_in_flight
  /\ is_processing t1_sleeping = true
  /\ status t1_sleeping = "PROCESSING".
Proof.
  assert (Hreach : Reachable t1_in_flight).
  { exists [Ingest t1_webhook 10 11; Begin "t1" 20 None]. reflexivity. }
  split; [exact Hreach|]. split; [reflexivity|].
  apply (C7_processing_flag_implies_processing_status t1_in_flight Hreach
           t1_sleeping); [now left | reflexivity].
Defined.

(** C10: in every state the service can reach from an empty table, every row
    has status PROCESSING, PROCESSED or FAILED and none has status RECEIVED;
    hence neither [get_transaction] nor [list_transactions] ever shows
    RECEIVED. *)
Theorem C10_received_is_never_stored :
  forall s : State,
    Reachable s ->
    (forall r : Transaction,
        In r (table s) -> status_known r /\ status r <> "RECEIVED")
    /\ (forall (t : string) (shown : list TransactionResponse),
           get_transaction t (table s) = Ok shown ->
           Forall (fun x => status_known x /\ status x <> "RECEIVED") shown)
    /\ Forall (fun x => status_known x /\ status x <> "RECEIVED")
         (list_transactions (table s)).
Proof.
  intros s Hreach.
  destruct (reachable_table_ok s Hreach) as [_ Hall].
  rewrite Forall_forall in Hall.
  assert (Hrow : forall r, In r (table s) ->
            status_known r /\ status r <> "RECEIVED").
  { intros r Hin. destruct (Hall r Hin) as [Hk _]. split; [exact Hk|].
    destruct Hk as [E | [E | E]]; rewrite E; discriminate. }
  split; [exact Hrow|]. split.
  - intros t shown Hget. unfold get_transaction, model_validate in Hget.
    destruct (query_first t (table s)) as [r|] eqn:Hq; [|discriminate].
    inversion Hget; subst shown. constructor; [|constructor].
    apply Hrow. now apply query_first_some in Hq.
  - apply Forall_forall. intros x Hx. apply Hrow.
    eapply Permutation_in; [|exact Hx]. apply Permutation_sym.
    apply list_transactions_perm.
Qed.

Lemma C10_received_witness :
  Reachable t1_in_flight
  /\ status_known t1_sleeping /\ status t1_sleeping <> "RECEIVED".
Proof.
  assert (Hreach : Reachable t1_in_flight).
  { exists [Ingest t1_webhook 10 11; Begin "t1" 20 None]. reflexivity. }
  split; [exact Hreach|].
  apply (proj1 (C10_received_is_never_stored t1_in_flight Hreach) t1_sleeping).
  now left.
Defined.

(** ** Status and the nullable columns *)

(** C6, as stated, fails: with a second run started for "t1" while the first
    one sleeps, the service reaches a table whose row "t1" is PROCESSED and
    carries the [error_message] written by the run that failed. *)
Lemma C6_processed_row_keeps_error_message :
  ~ (forall s : State,
        Reachable s ->
        forall r : Transaction, In r (table s) -> timestamps_match_status r).
Proof.
  intros Hclaim.
  assert (Hreach : Reachable (mkState [t1_processed_with_error] [])).
  { exists t1_two_runs. reflexivity. }
  destruct (Hclaim _ Hreach t1_processed_with_error (or_introl eq_refl))
    as [_ [He _]].
  assert (Hs : status t1_processed_with_error = "FAILED").
  { apply He. discriminate. }
  discriminate Hs.
Qed.

Section DispatchedRuns.

Lemma take_split (t : string) (ph : phase) (ts rest : list Task) :
  take t ph ts = Some rest ->
  exists l1 l2, ts = l1 ++ (t, ph) :: l2 /\ rest = l1 ++ l2.
Proof.
  revert rest. induction ts as [|[t' ph'] ts IH]; simpl; intros rest H.
  - discriminate.
  - destruct (String.eqb t' t && phase_eqb ph' ph) eqn:E.
    + inversion H; subst rest. apply andb_prop in E. destruct E as [Et Ep].
      apply String.eqb_eq in Et. subst t'.
      assert (ph' = ph) by (destruct ph', ph; simpl in Ep; congruence).
      subst ph'. now exists [], ts.
    + destruct (take t ph ts) as [rest'|]; [|discriminate].
      inversion H; subst rest.
      destruct (IH rest' eq_refl) as [l1 [l2 [-> ->]]].
      now exists ((t', ph') :: l1), l2.
Qed.

Lemma take_rest (t : string) (ph : phase) (ts rest : list Task) :
  NoDup (map fst ts) -> take t ph ts = Some rest ->
  In (t, ph) ts
  /\ NoDup (map fst rest)
  /\ ~ In t (map fst rest)
  /\ (forall x, In x rest -> In x ts).
Proof.
  intros Hnd Htake. apply take_split in Htake.
  destruct Htake as [l1 [l2 [-> ->]]].
  rewrite map_app in Hnd. simpl in Hnd.
  split; [apply in_or_app; right; now left|].
  split; [rewrite map_app; eapply NoDup_remove_1; exact Hnd|].
  split; [rewrite map_app; eapply NoDup_remove_2; exact Hnd|].
  intros x Hx. apply in_app_or in Hx. apply in_or_app.
  destruct Hx; [now left | right; now right].
Qed.

Lemma query_first_update_other (t u : string) (g : Transaction -> Transaction)
    (db : Table) :
  keeps_key g -> t <> u ->
  query_first t (update u g db) = query_first t db.
Proof.
  intros Hg Hne. rewrite query_first_update by assumption.
  destruct (query_first t db) as [r|] eqn:Hq; [|reflexivity].
  simpl. apply query_first_some in Hq. destruct Hq as [_ Hk].
  assert (E : has_key u r = false) by (apply has_key_false; congruence).
  now rewrite E.
Qed.

Variables (db : Table) (t : string) (r0 : Transaction)
          (g : Transaction -> Transaction).
Hypothesis unique_keys : NoDup (keys db).
Hypothesis loaded : query_first t db = Some r0.
Hypothesis g_keeps_key : keeps_key g.

(** Rewriting the one row of [t] keeps the columns of all rows in step with
    their status when it does so on that row. *)
Lemma timestamps_after_update :
  Forall timestamps_match_status db ->
  timestamps_match_status (g r0) ->
  Forall timestamps_match_status (update t g db).
Proof.
  intros Hall Hg. apply Forall_update; [exact Hall|].
  intros r Hin Hk _.
  assert (r = r0) by (eapply key_unique; eauto). now subst r.
Qed.

(** The runs of the other identifiers still find their pending rows. *)
Lemma pending_after_update (rest : list Task) :
  ~ In t (map fst rest) ->
  (forall u ph, In (u, ph) rest ->
     exists r, query_first u db = Some r /\ pending_row r) ->
  forall u ph, In (u, ph) rest ->
    exists r, query_first u (update t g db) = Some r /\ pending_row r.
Proof.
  intros Hnot Hrows u ph Hin.
  rewrite query_first_update_other; [now apply (Hrows u ph) | assumption |].
  intros ->. apply Hnot. now apply (in_map fst) in Hin.
Qed.

End DispatchedRuns.

Lemma pending_match (r : Transaction) :
  pending_row r -> timestamps_match_status r.
Proof.
  intros [Hs [Hp He]]. unfold timestamps_match_status.
  rewrite Hs, Hp, He. repeat split; intros H; congruence.
Qed.

Lemma pending_mark_processing (now : datetime) (r : Transaction) :
  pending_row r -> pending_row (mark_processing now r).
Proof. intros H. exact H. Qed.

Lemma pending_mark_processed (now : datetime) (r : Transaction) :
  pending_row r -> timestamps_match_status (mark_processed now r).
Proof.
  intros [Hs [Hp He]]. unfold timestamps_match_status. simpl. rewrite He.
  repeat split; intros H; congruence.
Qed.

Lemma pending_mark_failed (e : Exception) (r : Transaction) :
  pending_row r -> timestamps_match_status (mark_failed e r).
Proof.
  intros [Hs [Hp He]]. unfold timestamps_match_status. simpl. rewrite Hp.
  repeat split; intros H; congruence.
Qed.

(** Every step other than [Invoke] keeps [dispatch_ok]. *)
Lemma step_dispatch_ok (s s' : State) (ev : event) :
  is_invoke ev = false ->
  dispatch_ok s -> step s ev = Some s' -> dispatch_ok s'.
Proof.
  intros Hev [Hnd [Htn [Hrows Hall]]] Hstep.
  destruct ev as [w c r | u | t now f | t now f]; simpl in Hstep;
    [ | discriminate Hev | | ].
  - (* Ingest *)
    destruct (receive_webhook_cases w c r (table s))
      as [[r0 [Hq E]] | [[Hq [_ [tr [E [Hid [Hp [Hf _]]]]]]] | [Hq [_ E]]]];
      rewrite E in Hstep; inversion Hstep; subst s'; simpl.
    + unfold dispatch_ok. simpl. auto.
    + assert (Hfresh : ~ In (wh_transaction_id w) (map fst (tasks s))).
      { intros Hin. apply in_map_iff in Hin. destruct Hin as [[u ph] [Eu Hin]].
        simpl in Eu. subst u. destruct (Hrows _ _ Hin) as [r1 [Hq1 _]].
        congruence. }
      unfold dispatch_ok, process_in_background. simpl.
      split; [|split; [|split]].
      * rewrite keys_app. simpl. apply NoDup_snoc; [exact Hnd|].
        rewrite Hid. now apply query_first_none.
      * rewrite map_app. simpl. now apply NoDup_snoc.
      * intros u ph Hin. rewrite query_first_app.
        apply in_app_or in Hin. destruct Hin as [Hin | [Hin | []]].
        -- destruct (Hrows _ _ Hin) as [r1 [Hq1 Hp1]]. rewrite Hq1. now exists r1.
        -- inversion Hin; subst u ph. rewrite Hq. exists tr. split; [|exact Hp].
           unfold query_first. simpl.
           assert (Hk : has_key (wh_transaction_id w) tr = true)
             by now apply has_key_true.
           now rewrite Hk.
      * apply Forall_app. split; [exact Hall|].
        constructor; [now apply pending_match | constructor].
    + unfold dispatch_ok. simpl. auto.
  - (* Begin *)
    destruct (take t Queued (tasks s)) as [rest|] eqn:Htake; [|discriminate].
    destruct (take_rest _ _ _ _ Htn Htake) as [Hin [Hrn [Hrt Hsub]]].
    destruct (Hrows _ _ Hin) as [r0 [Hq0 Hp0]].
    assert (Hrest : forall u ph, In (u, ph) rest ->
              exists r1, query_first u (table s) = Some r1 /\ pending_row r1)
      by (intros u ph Hu; apply (Hrows u ph); now apply Hsub).
    pose proof (begin_cases f t now (table s)) as Hc.
    destruct (process_transaction_begin f t now (table s)) as [out db'].
    inversion Hstep; subst s'; clear Hstep. unfold dispatch_ok; simpl.
    destruct Hc as [[-> ->] | [[-> [-> _]]
                   | [[-> [e [r1 [-> _]]]] | [[e [-> | ->]] ->]]]].
    + auto.
    + split; [now rewrite keys_update|]. split; [|split].
      * rewrite map_app. simpl. now apply NoDup_snoc.
      * intros u ph Hu. apply in_app_or in Hu. destruct Hu as [Hu | [Hu | []]].
        -- eapply pending_after_update; eauto.
        -- inversion Hu; subst u ph. exists (mark_processing now r0).
           split; [now apply query_first_update_same|].
           now apply pending_mark_processing.
      * eapply timestamps_after_update; eauto.
        apply pending_match. now apply pending_mark_processing.
    + split; [now rewrite keys_update|]. split; [exact Hrn|]. split.
      * eapply pending_after_update; eauto.
      * eapply timestamps_after_update; eauto. now apply pending_mark_failed.
    + auto.
    + auto.
  - (* Finish *)
    destruct (take t Sleeping (tasks s)) as [rest|] eqn:Htake; [|discriminate].
    destruct (take_rest _ _ _ _ Htn Htake) as [Hin [Hrn [Hrt Hsub]]].
    destruct (Hrows _ _ Hin) as [r0 [Hq0 Hp0]].
    assert (Hrest : forall u ph, In (u, ph) rest ->
              exists r1, query_first u (table s) = Some r1 /\ pending_row r1)
      by (intros u ph Hu; apply (Hrows u ph); now apply Hsub).
    pose proof (resume_cases f t now (table s)) as Hc.
    destruct (process_transaction_resume f t now (table s)) as [out db'].
    inversion Hstep; subst s'; clear Hstep. unfold dispatch_ok; simpl.
    destruct Hc as [[_ [-> _]] | [[_ [-> _]]
                   | [[_ [e [r1 [-> _]]]] | [_ ->]]]].
    + auto.
    + split; [now rewrite keys_update|]. split; [exact Hrn|]. split.
      * eapply pending_after_update; eauto.
      * eapply timestamps_after_update; eauto. now apply pending_mark_processed.
    + split; [now rewrite keys_update|]. split; [exact Hrn|]. split.
      * eapply pending_after_update; eauto.
      * eapply timestamps_after_update; eauto. now apply pending_mark_failed.
    + auto.
Qed.

Lemma run_dispatch_ok (evs : list event) (s s' : State) :
  dispatched_only evs = true ->
  dispatch_ok s -> run evs s = Some s' -> dispatch_ok s'.
Proof.
  revert s. induction evs as [|ev evs IH]; simpl; intros s Hd Hok Hrun.
  - now inversion Hrun; subst.
  - apply andb_prop in Hd. destruct Hd as [Hev Hd].
    destruct (step s ev) as [s1|] eqn:Hstep; [|discriminate].
    eapply IH; [exact Hd | | exact Hrun].
    eapply step_dispatch_ok; [|exact Hok|exact Hstep].
    now destruct (is_invoke ev).
Qed.

(** C6 (amended): in every state the service reaches from an empty table by
    ingest calls and the background runs those calls start (one per stored
    row), faulting or not, every row has [processed_at] set exactly when its
    status is PROCESSED and [error_message] set exactly when its status is
    FAILED. *)
Theorem C6_columns_match_status_for_dispatched_runs :
  forall s : State,
    ReachableByDispatch s ->
    forall r : Transaction, In r (table s) -> timestamps_match_status r.
Proof.
  intros s [evs [Hd Hrun]] r Hin.
  assert (Hok : dispatch_ok s).
  { eapply run_dispatch_ok; [exact Hd | | exact Hrun].
    unfold dispatch_ok. simpl. repeat split; try constructor.
    intros u ph []. }
  destruct Hok as [_ [_ [_ Hall]]]. rewrite Forall_forall in Hall.
  now apply Hall.
Qed.

Lemma C6_columns_match_status_witness :
  ReachableByDispatch t1_done
  /\ timestamps_match_status t1_processed.
Proof.
  assert (Hreach : ReachableByDispatch t1_done).
  { exists t1_three_times. split; reflexivity. }
  split; [exact Hreach|].
  apply (C6_columns_match_status_for_dispatched_runs t1_done Hreach t1_processed).
  now left.
Defined.


(** ** Further properties of the request handlers *)

(** After an ingest call whose identifier is already stored, or whose amount
    is not NaN, [get_transaction] finds exactly one row for the identifier of
    the notification; when the identifier was already stored it is the stored
    row, untouched by the payload of the new notification. *)
Theorem ingest_then_get_finds_row :
  forall (webhook : TransactionWebhook) (now_created now_received : datetime)
         (db : Table),
    query_first (wh_transaction_id webhook) db <> None
    \/ is_nan (wh_amount webhook) = false ->
    exists tr,
      get_transaction (wh_transaction_id webhook)
        (snd (receive_webhook webhook now_created now_received db)) = Ok [tr]
      /\ transaction_id tr = wh_transaction_id webhook
      /\ (forall old, query_first (wh_transaction_id webhook) db = Some old ->
                      tr = old).
Proof.
  intros w c r db Hok. unfold get_transaction, model_validate.
  destruct (receive_webhook_cases w c r db)
    as [[r0 [Hq E]] | [[Hq [_ [tr [E [Hid _]]]]] | [Hq [Hn _]]]];
    [ | | destruct Hok; congruence]; rewrite E; simpl.
  - exists r0. rewrite Hq. split; [reflexivity|]. split.
    + now apply query_first_some in Hq.
    + intros old Hold. congruence.
  - exists tr. rewrite query_first_app, Hq.
    assert (Hk : has_key (wh_transaction_id w) tr = true) by now apply has_key_true.
    unfold query_first. simpl. rewrite Hk.
    split; [reflexivity|]. split; [exact Hid|]. intros old Hold. discriminate.
Qed.

Lemma ingest_then_get_witness :
  exists tr,
    get_transaction (wh_transaction_id t1_webhook)
      (snd (receive_webhook t1_webhook 10 11 [])) = Ok [tr]
    /\ transaction_id tr = wh_transaction_id t1_webhook
    /\ (forall old, query_first (wh_transaction_id t1_webhook) [] = Some old ->
                    tr = old).
Proof.
  apply (ingest_then_get_finds_row t1_webhook 10 11 []).
  right. reflexivity.
Defined.

(** [get_transaction] answers with the 404 exactly for the identifiers the
    table does not hold; otherwise it returns one row, a row of the table with
    the requested identifier. *)
Theorem get_transaction_not_found_iff_unknown :
  forall (t : string) (db : Table),
    (get_transaction t db = Raise "404: Transaction not found"
     <-> ~ In t (keys db))
    /\ (In t (keys db) ->
        exists r, get_transaction t db = Ok [r] /\ In r db
                  /\ transaction_id r = t).
Proof.
  intros t db. unfold get_transaction, model_validate. split.
  - rewrite <- query_first_none.
    destruct (query_first t db); split; intros H; congruence.
  - intros Hin. destruct (query_first_present t db Hin) as [r Hq].
    rewrite Hq. exists r. split; [reflexivity|]. now apply query_first_some.
Qed.

(** [receive_webhook] starts a background run exactly when the identifier was
    unknown and the amount is not NaN, and then the table grows by one row at
    its end; otherwise the table is returned as it was.  Rows already stored
    are never changed, moved or removed.  A notification with an unknown
    identifier and a NaN amount is refused: the call raises, stores nothing
    and starts nothing. *)
Theorem receive_webhook_dispatches_iff_new :
  forall (webhook : TransactionWebhook) (now_created now_received : datetime)
         (db : Table),
    (query_first (wh_transaction_id webhook) db = None
     /\ is_nan (wh_amount webhook) = false
     <-> dispatched (fst (receive_webhook webhook now_created now_received db))
         = Some (wh_transaction_id webhook))
    /\ (dispatched (fst (receive_webhook webhook now_created now_received db))
        = None
        -> snd (receive_webhook webhook now_created now_received db) = db)
    /\ (dispatched (fst (receive_webhook webhook now_created now_received db))
        <> None
        -> exists tr,
             snd (receive_webhook webhook now_created now_received db)
             = db ++ [tr])
    /\ (query_first (wh_transaction_id webhook) db = None
        /\ is_nan (wh_amount webhook) = true
        <-> response (fst (receive_webhook webhook now_created now_received db))
            = Raise "IntegrityError: NOT NULL constraint failed: transactions.amount")
    /\ firstn (List.length db)
         (snd (receive_webhook webhook now_created now_received db)) = db.
Proof.
  intros w c r db.
  destruct (receive_webhook_cases w c r db)
    as [[r0 [Hq E]] | [[Hq [Hn [tr [E _]]]] | [Hq [Hn E]]]]; rewrite E; simpl.
  - rewrite Hq. split; [split; [intros [H _] | intros H]; discriminate|].
    split; [reflexivity|]. split; [congruence|].
    split; [split; [intros [H _] | intros H]; discriminate|].
    now rewrite firstn_all.
  - split; [split; [reflexivity | now split]|].
    split; [discriminate|]. split; [intros _; now exists tr|].
    split; [split; [intros [_ H]; congruence | intros H; discriminate]|].
    rewrite firstn_app, Nat.sub_diag, firstn_all. simpl. apply app_nil_r.
  - split; [split; [intros [_ H]; congruence | intros H; discriminate]|].
    split; [reflexivity|]. split; [congruence|].
    split; [split; [reflexivity | now split]|].
    now rewrite firstn_all.
Qed.


(** ** Further properties of the background processor *)

Lemma same_payload_refl (r : Transaction) : same_payload r r.
Proof. repeat split. Qed.

Lemma Forall2_update (t : string) (g : Transaction -> Transaction) (db : Table) :
  (forall r, same_payload r (g r)) -> Forall2 same_payload db (update t g db).
Proof.
  intros Hg. unfold update. induction db as [|x db IH]; simpl; constructor.
  - destruct (has_key t x); [apply Hg | apply same_payload_refl].
  - exact IH.
Qed.

Lemma Forall2_same_payload_refl (db : Table) : Forall2 same_payload db db.
Proof. induction db; constructor; [apply same_payload_refl | assumption]. Qed.

Lemma Forall2_same_payload_trans (a b c : Table) :
  Forall2 same_payload a b -> Forall2 same_payload b c ->
  Forall2 same_payload a c.
Proof.
  intros Hab. revert c. induction Hab as [|x y a b Hxy Hab IH]; intros c Hbc.
  - inversion Hbc. constructor.
  - inversion Hbc as [|? z ? c' Hyz Hbc']; subst. constructor; [|now apply IH].
    unfold same_payload in *. intuition congruence.
Qed.

(** Either segment rewrites rows in place and leaves the payload columns and
    the rows of other identifiers alone. *)
Lemma begin_frame (f : option Fault) (t : string) (now : datetime) (db : Table) :
  Forall2 same_payload db (snd (process_transaction_begin f t now db))
  /\ forall u, u <> t ->
       query_first u (snd (process_transaction_begin f t now db))
       = query_first u db.
Proof.
  pose proof (begin_cases f t now db) as Hc.
  destruct (process_transaction_begin f t now db) as [out db']. simpl.
  destruct Hc as [[_ ->] | [[_ [-> _]] | [[_ [e [r [-> _]]]] | [_ ->]]]];
    (split;
     [ first [ apply Forall2_same_payload_refl
             | apply Forall2_update; intros x; repeat split ]
     | intros u Hu; first [ reflexivity
                          | apply query_first_update_other; auto ] ]).
Qed.

Lemma resume_frame (f : option Fault) (t : string) (now : datetime) (db : Table) :
  Forall2 same_payload db (snd (process_transaction_resume f t now db))
  /\ forall u, u <> t ->
       query_first u (snd (process_transaction_resume f t now db))
       = query_first u db.
Proof.
  pose proof (resume_cases f t now db) as Hc.
  destruct (process_transaction_resume f t now db) as [out db']. simpl.
  destruct Hc as [[_ [-> _]] | [[_ [-> _]]
                 | [[_ [e [r [-> _]]]] | [_ ->]]]];
    (split;
     [ first [ apply Forall2_same_payload_refl
             | apply Forall2_update; intros x; repeat split ]
     | intros u Hu; first [ reflexivity
                          | apply query_first_update_other; auto ] ]).
Qed.

(** A run of [process_transaction], faulting or not, neither inserts nor
    removes nor reorders rows, never changes the identifier, the accounts, the
    amount, the currency, [created_at] or [webhook_received_at] of any row,
    and leaves the rows of every other identifier exactly as they were. *)
Theorem process_transaction_keeps_payload_and_other_rows :
  forall (f : option Fault) (t : string) (started finished : datetime)
         (db : Table),
    Forall2 same_payload db (snd (process_transaction f t started finished db))
    /\ keys (snd (process_transaction f t started finished db)) = keys db
    /\ forall u, u <> t ->
         query_first u (snd (process_transaction f t started finished db))
         = query_first u db.
Proof.
  intros f t started finished db.
  assert (H : Forall2 same_payload db
                (snd (process_transaction f t started finished db))
              /\ forall u, u <> t ->
                   query_first u
                     (snd (process_transaction f t started finished db))
                   = query_first u db).
  { rewrite process_transaction_unfold.
    destruct (begin_frame f t started db) as [Hp Hq].
    destruct (process_transaction_begin f t started db) as [[[|]|e|e] db1];
      simpl in *; try (split; assumption).
    destruct (resume_frame f t finished db1) as [Hp' Hq'].
    split.
    - eapply Forall2_same_payload_trans; eauto.
    - intros u Hu. rewrite Hq' by assumption. now apply Hq. }
  destruct H as [Hp Hq]. split; [exact Hp|]. split; [|exact Hq].
  unfold keys. clear Hq.
  induction Hp as [|x y a b Hxy Hab IH]; simpl; [reflexivity|].
  destruct Hxy as [E _]. now rewrite E, IH.
Qed.

(** A run for an identifier the table does not hold writes nothing, whatever
    fault it meets, and returns normally unless its initial query raises a
    [BaseException] or the handler's query raises. *)
Theorem process_transaction_unknown_identifier :
  forall (f : option Fault) (t : string) (started finished : datetime)
         (db : Table),
    query_first t db = None ->
    snd (process_transaction f t started finished db) = db
    /\ (reload_fault f = None ->
        (forall e, fault_at f AtLoad <> Some (ThrownBase e)) ->
        fst (process_transaction f t started finished db) = Ok Finished).
Proof.
  intros f t started finished db Hq.
  unfold process_transaction. unfold_segment.
  destruct (fault_at f AtLoad) as [[e1|e1]|] eqn:Hl;
    destruct (reload_fault f) as [[e3|e3]|] eqn:Hr;
    reduce_segment;
    (split; [reflexivity | intros Hn Hb; try congruence; try reflexivity]).
  all: exfalso; apply (Hb e1); reflexivity.
Qed.

Lemma process_transaction_unknown_witness :
  snd (process_transaction (Some locked) "t9" 20 50 [t1_pending]) = [t1_pending].
Proof.
  apply (process_transaction_unknown_identifier (Some locked) "t9" 20 50
           [t1_pending]).
  reflexivity.
Defined.

Lemma begin_cases_stored (f : option Fault) (t : string) (now : datetime)
    (db : Table) (r : Transaction) :
  query_first t db = Some r ->
  let '(out, db') := process_transaction_begin f t now db in
  (out = Ok Finished /\ db' = db /\ is_terminal (status r) = true)
  \/ (out = Ok Awaiting /\ db' = update t (mark_processing now) db
      /\ is_terminal (status r) = false)
  \/ (out = Ok Finished /\ exists e, db' = update t (mark_failed e) db)
  \/ ((exists e, out = Raise e \/ out = RaiseBase e) /\ db' = db).
Proof.
  intros Hq. unfold_segment.
  destruct (fault_at f AtLoad) as [[e1|e1]|] eqn:Hl;
    destruct (fault_at f AtMarkCommit) as [[e2|e2]|] eqn:Hm;
    destruct (reload_fault f) as [[e3|e3]|] eqn:Hr;
    destruct (persist_fault f) as [[e4|e4]|] eqn:Hp;
    reduce_segment;
    try (destruct (is_terminal (status r)) eqn:Ht; reduce_segment);
    first
      [ left; solve [auto]
      | right; left; solve [auto]
      | right; right; left; solve [split; [reflexivity | eexists; reflexivity]]
      | right; right; right; solve [split; [eexists; eauto | reflexivity]] ].
Qed.

(** A run on a stored row that returns leaves the row in a terminal status:
    a run never returns with its row still PROCESSING. *)
Theorem returning_run_leaves_terminal_status :
  forall (f : option Fault) (t : string) (started finished : datetime)
         (db : Table) (r : Transaction),
    query_first t db = Some r ->
    fst (process_transaction f t started finished db) = Ok Finished ->
    exists r',
      query_first t (snd (process_transaction f t started finished db)) = Some r'
      /\ is_terminal (status r') = true.
Proof.
  intros f t started finished db r Hq.
  rewrite process_transaction_unfold.
  pose proof (begin_cases_stored f t started db r Hq) as Hc.
  destruct (process_transaction_begin f t started db) as [out db1].
  destruct Hc as [[-> [-> Ht]] | [[-> [-> Ht]]
                 | [[-> [e ->]] | [[e [-> | ->]] ->]]]];
    simpl.
  - intros _. now exists r.
  - assert (Hq1 := query_first_update_same t (mark_processing started) db r
                     (keeps_key_mark_processing started) Hq).
    pose proof (resume_cases f t finished
                  (update t (mark_processing started) db)) as Hres.
    destruct (process_transaction_resume f t finished
                (update t (mark_processing started) db)) as [out db2].
    simpl. intros ->.
    destruct Hres as [[_ [_ Hn]] | [[_ [-> _]]
                     | [[_ [e [r1 [-> _]]]] | [[e [Hx | Hx]] _]]]];
      try congruence;
      (eexists; split;
       [apply query_first_update_same; [auto | exact Hq1] | reflexivity]).
  - intros _. eexists. split;
      [apply query_first_update_same; [auto | exact Hq] | reflexivity].
  - intros H. discriminate H.
  - intros H. discriminate H.
Qed.

Lemma returning_run_witness :
  exists r',
    query_first "t1"
      (snd (process_transaction (Some locked) "t1" 20 50 [t1_pending])) = Some r'
    /\ is_terminal (status r') = true.
Proof.
  apply (returning_run_leaves_terminal_status (Some locked) "t1" 20 50
           [t1_pending] t1_pending); reflexivity.
Defined.

(** Whenever an exception leaves [process_transaction] (a [BaseException]
    the handler does not catch, an exception of the handler's own query or
    commit, or the refusal of a session whose commit raised), the run has
    written no terminal status: the table is untouched, or only the processing
    mark was committed and the row stays flagged as processing with the
    status it had. *)
Theorem escaping_exception_leaves_row_unfinished :
  forall (f : option Fault) (t : string) (started finished : datetime)
         (db : Table),
    (exists e,
        fst (process_transaction f t started finished db) = Raise e
        \/ fst (process_transaction f t started finished db) = RaiseBase e) ->
    snd (process_transaction f t started finished db) = db
    \/ exists r,
         query_first t db = Some r
         /\ is_terminal (status r) = false
         /\ snd (process_transaction f t started finished db)
            = update t (mark_processing started) db
         /\ query_first t (snd (process_transaction f t started finished db))
            = Some (mark_processing started r)
         /\ is_processing (mark_processing started r) = true
         /\ status (mark_processing started r) = status r.
Proof.
  intros f t started finished db.
  rewrite process_transaction_unfold.
  pose proof (begin_cases f t started db) as Hc.
  destruct (process_transaction_begin f t started db) as [out db1].
  destruct Hc as [[-> ->] | [[-> [-> [_ [_ [r [Hq Ht]]]]]]
                 | [[-> _] | [[e [-> | ->]] ->]]]]; simpl;
    try (intros [e' [H | H]]; discriminate H);
    try (intros _; now left).
  assert (Hq1 := query_first_update_same t (mark_processing started) db r
                   (keeps_key_mark_processing started) Hq).
  pose proof (resume_cases f t finished
                (update t (mark_processing started) db)) as Hres.
  destruct (process_transaction_resume f t finished
              (update t (mark_processing started) db)) as [out db2].
  simpl. intros [e' Hout].
  destruct Hres as [[Hx _] | [[Hx _] | [[Hx _] | [_ ->]]]];
    try (destruct Hout as [H | H]; rewrite Hx in H; discriminate H).
  right. exists r. repeat split; assumption.
Qed.

Lemma escaping_exception_witness :
  snd (process_transaction (Some cancelled) "t1" 20 50 [t1_pending])
  = [t1_pending]
  \/ exists r,
       query_first "t1" [t1_pending] = Some r
       /\ is_terminal (status r) = false
       /\ snd (process_transaction (Some cancelled) "t1" 20 50 [t1_pending])
          = update "t1" (mark_processing 20) [t1_pending]
       /\ query_first "t1"
            (snd (process_transaction (Some cancelled) "t1" 20 50 [t1_pending]))
          = Some (mark_processing 20 r)
       /\ is_processing (mark_processing 20 r) = true
       /\ status (mark_processing 20 r) = status r.
Proof.
  apply (escaping_exception_leaves_row_unfinished (Some cancelled) "t1" 20 50
           [t1_pending]).
  exists "CancelledError". right. reflexivity.
Defined.

(** A fault raised by either commit of the [try] block is never turned into
    FAILED: the session is not rolled back, so the handler's query is refused
    (or, for a [BaseException], the handler is not entered); an exception
    leaves the run and the row keeps the status, [processed_at] and
    [error_message] it had. *)
Theorem commit_fault_is_never_absorbed :
  forall (p : point) (th : thrown) (h : handler_fault) (t : string)
         (started finished : datetime) (db : Table) (r : Transaction),
    p = AtMarkCommit \/ p = AtFinalCommit ->
    query_first t db = Some r ->
    is_terminal (status r) = false ->
    (exists e,
        fst (process_transaction (Some (mkFault p th h)) t started finished db)
        = Raise e
        \/ fst (process_transaction (Some (mkFault p th h)) t started finished db)
           = RaiseBase e)
    /\ exists r',
         query_first t
           (snd (process_transaction (Some (mkFault p th h)) t started finished
                   db)) = Some r'
         /\ status r' = status r
         /\ processed_at r' = processed_at r
         /\ error_message r' = error_message r.
Proof.
  intros p th h t started finished db r Hp Hq Ht.
  assert (Hq1 := query_first_update_same t (mark_processing started) db r
                   (keeps_key_mark_processing started) Hq).
  unfold process_transaction. unfold_segment.
  destruct Hp as [-> | ->]; destruct th as [e|e]; simpl; reduce_segment;
    (split; [eexists; eauto|]); eexists; (split; [eassumption|]);
    repeat split; reflexivity.
Qed.

Lemma commit_fault_witness :
  exists r',
    query_first "t1"
      (snd (process_transaction
              (Some (mkFault AtFinalCommit
                       (Thrown "OperationalError: database is locked")
                       HandlerRuns)) "t1" 20 50 [t1_pending])) = Some r'
    /\ status r' = status t1_pending
    /\ processed_at r' = processed_at t1_pending
    /\ error_message r' = error_message t1_pending.
Proof.
  apply (commit_fault_is_never_absorbed AtFinalCommit
           (Thrown "OperationalError: database is locked") HandlerRuns "t1" 20 50
           [t1_pending] t1_pending);
    [right; reflexivity | reflexivity | reflexivity].
Defined.

Lemma fault_free_run_unknown (t : string) (started finished : datetime)
    (db : Table) :
  query_first t db = None ->
  process_transaction None t started finished db = (Ok Finished, db).
Proof.
  intros Hq. unfold process_transaction. unfold_segment. simpl.
  reduce_segment. reflexivity.
Qed.

Lemma fault_free_run_stored (t : string) (started finished : datetime)
    (db : Table) (r : Transaction) :
  query_first t db = Some r -> is_terminal (status r) = false ->
  process_transaction None t started finished db
  = (Ok Finished,
     update t (mark_processed finished) (update t (mark_processing started) db)).
Proof.
  intros Hq Ht. rewrite process_transaction_unfold.
  rewrite (begin_without_fault None t started db r eq_refl eq_refl Hq Ht).
  assert (Hq1 := query_first_update_same t (mark_processing started) db r
                   (keeps_key_mark_processing started) Hq).
  now rewrite (resume_without_fault None t finished _ _ eq_refl eq_refl Hq1).
Qed.

(** A second fault-free run for the same identifier, right after a first one,
    changes nothing: the first run left no row of that identifier for the
    second to work on. *)
Theorem fault_free_run_is_idempotent :
  forall (t : string) (started finished started' finished' : datetime)
         (db : Table),
    process_transaction None t started' finished'
      (snd (process_transaction None t started finished db))
    = (Ok Finished, snd (process_transaction None t started finished db)).
Proof.
  intros t a b a' b' db.
  destruct (query_first t db) as [r|] eqn:Hq.
  - destruct (is_terminal (status r)) eqn:Ht.
    + rewrite (terminal_guard None t a b db r eq_refl Hq Ht). simpl.
      now apply (terminal_guard None t a' b' db r).
    + rewrite (fault_free_run_stored t a b db r Hq Ht). simpl.
      apply (terminal_guard None t a' b' _
               (mark_processed b (mark_processing a r))); try reflexivity.
      apply query_first_update_same; [auto|].
      now apply query_first_update_same.
  - rewrite (fault_free_run_unknown t a b db Hq). simpl.
    now apply fault_free_run_unknown.
Qed.


(** ** Further invariants of the running service *)

Lemma step_rows (s s' : State) (ev : event) :
  step s ev = Some s' ->
  exists kept added,
    table s' = kept ++ added /\ Forall2 same_payload (table s) kept.
Proof.
  intros Hstep. destruct ev as [w c r | u | u now f | u now f]; simpl in Hstep.
  - destruct (receive_webhook_cases w c r (table s))
      as [[r0 [Hq E]] | [[Hq [_ [tr [E _]]]] | [Hq [_ E]]]];
      rewrite E in Hstep; inversion Hstep; subst s'; simpl.
    + exists (table s), []. rewrite app_nil_r.
      split; [reflexivity | apply Forall2_same_payload_refl].
    + exists (table s), [tr].
      split; [reflexivity | apply Forall2_same_payload_refl].
    + exists (table s), []. rewrite app_nil_r.
      split; [reflexivity | apply Forall2_same_payload_refl].
  - inversion Hstep; subst s'. simpl. exists (table s), [].
    rewrite app_nil_r. split; [reflexivity | apply Forall2_same_payload_refl].
  - destruct (take u Queued (tasks s)) as [rest|]; [|discriminate].
    destruct (begin_frame f u now (table s)) as [Hp _].
    destruct (process_transaction_begin f u now (table s)) as [out db'].
    inversion Hstep; subst s'; simpl in *. exists db', [].
    rewrite app_nil_r. now split.
  - destruct (take u Sleeping (tasks s)) as [rest|]; [|discriminate].
    destruct (resume_frame f u now (table s)) as [Hp _].
    destruct (process_transaction_resume f u now (table s)) as [out db'].
    inversion Hstep; subst s'; simpl in *. exists db', [].
    rewrite app_nil_r. now split.
Qed.

(** Along any trace of the service, whatever runs are started and whatever
    faults they meet, the rows of the table stay where they are: the final
    table is the initial one, row by row with the same identifier, accounts,
    amount, currency, [created_at] and [webhook_received_at], followed by the
    rows inserted since.  No row is ever deleted or has its payload changed. *)
Theorem trace_keeps_rows_and_payload :
  forall (evs : list event) (s s' : State),
    run evs s = Some s' ->
    exists kept added,
      table s' = kept ++ added /\ Forall2 same_payload (table s) kept.
Proof.
  induction evs as [|ev evs IH]; simpl; intros s s' Hrun.
  - inversion Hrun; subst s'. exists (table s), []. rewrite app_nil_r.
    split; [reflexivity | apply Forall2_same_payload_refl].
  - destruct (step s ev) as [s1|] eqn:Hstep; [|discriminate].
    destruct (step_rows _ _ _ Hstep) as [k1 [a1 [E1 H1]]].
    destruct (IH _ _ Hrun) as [k2 [a2 [E2 H2]]].
    rewrite E1 in H2. apply Forall2_app_inv_l in H2.
    destruct H2 as [k2a [k2b [Ha [Hb ->]]]].
    exists k2a, (k2b ++ a2). rewrite E2, app_assoc.
    split; [reflexivity|]. eapply Forall2_same_payload_trans; eauto.
Qed.

Lemma trace_keeps_rows_witness :
  exists kept added,
    table t1_t2_done = kept ++ added
    /\ Forall2 same_payload (table t1_queued) kept.
Proof.
  apply (trace_keeps_rows_and_payload t1_then_t2 t1_queued t1_t2_done).
  reflexivity.
Defined.

(** When every run is started by a first-time ingest, at most one run exists
    per identifier at any time, the row of a run is PROCESSING with
    [processed_at] and [error_message] unset, and a row in a terminal status
    has no run left. *)
Theorem dispatched_runs_one_per_identifier :
  forall s : State,
    ReachableByDispatch s ->
    NoDup (map fst (tasks s))
    /\ (forall t ph, In (t, ph) (tasks s) ->
          exists r, query_first t (table s) = Some r /\ pending_row r)
    /\ (forall r, In r (table s) -> is_terminal (status r) = true ->
          ~ In (transaction_id r) (map fst (tasks s))).
Proof.
  intros s [evs [Hd Hrun]].
  assert (Hok : dispatch_ok s).
  { eapply run_dispatch_ok; [exact Hd | | exact Hrun].
    unfold dispatch_ok. simpl. repeat split; try constructor.
    intros u ph []. }
  destruct Hok as [Hnd [Htn [Hrows _]]].
  split; [exact Htn|]. split; [exact Hrows|].
  intros r Hin Ht Htask. apply in_map_iff in Htask.
  destruct Htask as [[u ph] [Eu Hu]]. simpl in Eu. subst u.
  destruct (Hrows _ _ Hu) as [r1 [Hq1 [Hs1 _]]].
  assert (r = r1) by (eapply key_unique; eauto). subst r1.
  rewrite Hs1 in Ht. discriminate Ht.
Qed.

Lemma dispatched_runs_witness :
  NoDup (map fst (tasks t1_in_flight))
  /\ (forall t ph, In (t, ph) (tasks t1_in_flight) ->
        exists r, query_first t (table t1_in_flight) = Some r /\ pending_row r)
  /\ (forall r, In r (table t1_in_flight) -> is_terminal (status r) = true ->
        ~ In (transaction_id r) (map fst (tasks t1_in_flight))).
Proof.
  apply (dispatched_runs_one_per_identifier t1_in_flight).
  exists [Ingest t1_webhook 10 11; Begin "t1" 20 None]. split; reflexivity.
Defined.

Lemma step_columns_set (s s' : State) (ev : event) :
  Forall columns_set (table s) -> step s ev = Some s' ->
  Forall columns_set (table s').
Proof.
  intros Hall Hstep.
  assert (Hset : forall t g, (forall r, columns_set r -> columns_set (g r)) ->
            Forall columns_set (update t g (table s))).
  { intros t g Hg. apply Forall_update; [exact Hall|]. intros r _ _. apply Hg. }
  destruct ev as [w c r | u | u now f | u now f]; simpl in Hstep.
  - destruct (receive_webhook_cases w c r (table s))
      as [[r0 [Hq E]] | [[Hq [_ [tr [E [_ [[Hs _] [Hf _]]]]]]] | [Hq [_ E]]]];
      rewrite E in Hstep; inversion Hstep; subst s'; simpl;
      [exact Hall | | exact Hall].
    apply Forall_app. split; [exact Hall|]. constructor; [|constructor].
    unfold columns_set. rewrite Hs, Hf.
    repeat split; intros H; discriminate H.
  - inversion Hstep; subst s'. exact Hall.
  - destruct (take u Queued (tasks s)) as [rest|]; [|discriminate].
    pose proof (begin_cases f u now (table s)) as Hc.
    destruct (process_transaction_begin f u now (table s)) as [out db'].
    inversion Hstep; subst s'; simpl. clear Hstep.
    destruct Hc as [[_ ->] | [[_ [-> _]] | [[_ [e [r [-> _]]]] | [_ ->]]]];
      try exact Hall; apply Hset; intros x [H1 [H2 H3]]; unfold columns_set;
      simpl; repeat split; intros H; solve [auto | congruence | discriminate].
  - destruct (take u Sleeping (tasks s)) as [rest|]; [|discriminate].
    pose proof (resume_cases f u now (table s)) as Hc.
    destruct (process_transaction_resume f u now (table s)) as [out db'].
    inversion Hstep; subst s'; simpl. clear Hstep.
    destruct Hc as [[_ [-> _]] | [[_ [-> _]]
                   | [[_ [e [r [-> _]]]] | [_ ->]]]];
      try exact Hall; apply Hset; intros x [H1 [H2 H3]]; unfold columns_set;
      simpl; repeat split; intros H; solve [auto | congruence | discriminate].
Qed.

(** In every state the service can reach from an empty table, with runs
    started by ingests or otherwise and faulting or not: a PROCESSED row has
    [processed_at] set, a FAILED row has [error_message] set, and a row
    flagged as processing has [processing_started_at] set. *)
Theorem reachable_rows_have_their_columns_set :
  forall s : State,
    Reachable s ->
    forall r : Transaction,
      In r (table s) ->
      (status r = "PROCESSED" -> processed_at r <> None)
      /\ (status r = "FAILED" -> error_message r <> None)
      /\ (is_processing r = true -> processing_started_at r <> None).
Proof.
  intros s [evs Hrun] r Hin.
  assert (Hall : Forall columns_set (table s)).
  { clear r Hin. revert Hrun.
    assert (H0 : Forall columns_set (table initial)) by constructor.
    revert H0. generalize initial. induction evs as [|ev evs IH]; simpl;
      intros s0 H0 Hrun.
    - now inversion Hrun; subst.
    - destruct (step s0 ev) as [s1|] eqn:Hstep; [|discriminate].
      eapply IH; [|exact Hrun]. eapply step_columns_set; eauto. }
  rewrite Forall_forall in Hall. now apply Hall.
Qed.

Lemma reachable_columns_witness :
  (status t1_sleeping = "PROCESSED" -> processed_at t1_sleeping <> None)
  /\ (status t1_sleeping = "FAILED" -> error_message t1_sleeping <> None)
  /\ (is_processing t1_sleeping = true ->
      processing_started_at t1_sleeping <> None).
Proof.
  apply (reachable_rows_have_their_columns_set t1_in_flight).
  - exists [Ingest t1_webhook 10 11; Begin "t1" 20 None]. reflexivity.
  - now left.
Defined.


(** ** The clients' computations *)

Lemma filter_length_perm {A} (p : A -> bool) (l l' : list A) :
  Permutation l l' -> List.length (filter p l) = List.length (filter p l').
Proof.
  intros H. induction H as [|x l l' H IH|x y l|l l' l'' H1 IH1 H2 IH2]; simpl.
  - reflexivity.
  - destruct (p x); simpl; congruence.
  - destruct (p x), (p y); reflexivity.
  - congruence.
Qed.

Lemma post_all_spec (webhook : TransactionWebhook)
    (clocks : list (datetime * datetime)) (db : Table) :
  NoDup (keys db) ->
  In (wh_transaction_id webhook) (keys db)
  \/ is_nan (wh_amount webhook) = false ->
  NoDup (keys (snd (post_all webhook clocks db)))
  /\ (In (wh_transaction_id webhook) (keys db) \/ clocks <> [] ->
      In (wh_transaction_id webhook) (keys (snd (post_all webhook clocks db))))
  /\ List.length (fst (post_all webhook clocks db)) = List.length clocks
  /\ Forall (fun rc => response rc = Ok (acknowledged (wh_transaction_id webhook)))
       (fst (post_all webhook clocks db)).
Proof.
  revert db. induction clocks as [|[c r] clocks IH]; simpl; intros db Hnd Hok.
  - split; [exact Hnd|]. split; [intros [H|H]; [exact H | congruence]|].
    split; [reflexivity | constructor].
  - assert (H1 : NoDup (keys (snd (receive_webhook webhook c r db)))
                 /\ In (wh_transaction_id webhook)
                      (keys (snd (receive_webhook webhook c r db)))
                 /\ response (fst (receive_webhook webhook c r db))
                    = Ok (acknowledged (wh_transaction_id webhook))).
    { destruct (receive_webhook_cases webhook c r db)
        as [[r0 [Hq E]] | [[Hq [_ [tr [E [Hid _]]]]] | [Hq [Hn _]]]].
      - rewrite E; simpl. split; [exact Hnd|]. split; [|reflexivity].
        eapply query_first_keys; eauto.
      - rewrite E; simpl. rewrite keys_app. simpl. rewrite Hid.
        split; [|split; [|reflexivity]].
        + apply NoDup_snoc; [exact Hnd | now apply query_first_none].
        + apply in_or_app. right. now left.
      - exfalso. destruct Hok as [Hin | Hnan]; [|congruence].
        apply query_first_none in Hq. contradiction. }
    destruct (receive_webhook webhook c r db) as [rc db1]. simpl in H1.
    destruct H1 as [Hnd1 [Hin1 Hr1]].
    destruct (IH db1 Hnd1 (or_introl Hin1)) as [Hnd2 [Hin2 [Hlen Hall]]].
    destruct (post_all webhook clocks db1) as [rcs db2]. simpl in *.
    split; [exact Hnd2|]. split; [intros _; apply Hin2; now left|].
    split; [now rewrite Hlen | now constructor].
Qed.

(** test_duplicate_prevention passes on every table with unique identifiers
    for every notification whose identifier is already stored or whose amount
    is not NaN: however often (at least once) the notification is posted,
    every post is acknowledged and the listing then holds exactly one row
    with its identifier. *)
Theorem test_duplicate_prevention_passes :
  forall (webhook : TransactionWebhook) (clocks : list (datetime * datetime))
         (db : Table),
    NoDup (keys db) ->
    clocks <> [] ->
    In (wh_transaction_id webhook) (keys db)
    \/ is_nan (wh_amount webhook) = false ->
    List.length (snd (test_duplicate_prevention webhook clocks db)) = 1%nat
    /\ List.length (fst (test_duplicate_prevention webhook clocks db))
       = List.length clocks
    /\ Forall (fun rc => response rc
                         = Ok (acknowledged (wh_transaction_id webhook)))
         (fst (test_duplicate_prevention webhook clocks db)).
Proof.
  intros webhook clocks db Hnd Hne Hok. unfold test_duplicate_prevention.
  destruct (post_all_spec webhook clocks db Hnd Hok) as [Hnd' [Hin [Hlen Hall]]].
  destruct (post_all webhook clocks db) as [rcs db']. simpl in *.
  split; [|split; assumption].
  unfold duplicate_txns.
  rewrite <- (filter_length_perm _ _ _ (list_transactions_perm db')).
  apply (count_key_one (wh_transaction_id webhook) db' Hnd').
  apply Hin. now right.
Qed.

Lemma test_duplicate_prevention_witness :
  List.length
    (snd (test_duplicate_prevention t2_webhook [(30, 31); (32, 33); (34, 35)]
            [t1_processed])) = 1%nat.
Proof.
  apply (test_duplicate_prevention_passes t2_webhook
           [(30, 31); (32, 33); (34, 35)] [t1_processed]).
  - repeat constructor. intros [].
  - discriminate.
  - right. reflexivity.
Defined.

Lemma order_by_sorted (db : Table) : newest_first (list_transactions db).
Proof.
  unfold list_transactions, model_validate. rewrite map_id.
  unfold order_by_webhook_received_at_desc.
  induction db as [|r db IH]; simpl; [constructor | now apply insert_desc_sorted].
Qed.

(** A first-time notification with an amount that is not NaN, received later
    than every stored row, heads the listing. *)
Theorem newest_ingest_is_listed_first :
  forall (webhook : TransactionWebhook) (now_created now_received : datetime)
         (db : Table),
    query_first (wh_transaction_id webhook) db = None ->
    is_nan (wh_amount webhook) = false ->
    (forall r, In r db -> webhook_received_at r < now_received) ->
    exists tr rest,
      list_transactions (snd (receive_webhook webhook now_created now_received db))
      = tr :: rest
      /\ transaction_id tr = wh_transaction_id webhook
      /\ webhook_received_at tr = now_received.
Proof.
  intros w c r db Hq Hnan Hnew.
  destruct (receive_webhook_cases w c r db)
    as [[r0 [Hq0 _]] | [[_ [_ [tr [E [Hid [_ [_ [_ Hwr]]]]]]]] | [_ [Hn _]]]];
    [congruence | | congruence].
  rewrite E. simpl.
  pose proof (list_transactions_perm (db ++ [tr])) as Hperm.
  pose proof (order_by_sorted (db ++ [tr])) as Hsort.
  destruct (list_transactions (db ++ [tr])) as [|h rest] eqn:El.
  - apply Permutation_sym, Permutation_nil in Hperm.
    destruct db; discriminate Hperm.
  - assert (Hh : In h (db ++ [tr]))
      by (eapply Permutation_in; [apply Permutation_sym; exact Hperm | now left]).
    assert (Htr : In tr (h :: rest))
      by (eapply Permutation_in; [exact Hperm | apply in_or_app; right; now left]).
    apply in_app_or in Hh. destruct Hh as [Hh | [Hh | []]].
    + exfalso. destruct Htr as [Htr | Htr].
      * subst h. specialize (Hnew _ Hh). lia.
      * inversion Hsort as [|? ? _ Hall]; subst.
        rewrite Forall_forall in Hall. specialize (Hall _ Htr).
        unfold received_no_earlier in Hall. specialize (Hnew _ Hh). lia.
    + subst h. exists tr, rest. auto.
Qed.

Lemma newest_ingest_witness :
  exists tr rest,
    list_transactions (snd (receive_webhook t2_webhook 30 31 [t1_processed]))
    = tr :: rest
    /\ transaction_id tr = wh_transaction_id t2_webhook
    /\ webhook_received_at tr = 31.
Proof.
  apply (newest_ingest_is_listed_first t2_webhook 30 31 [t1_processed]).
  - reflexivity.
  - reflexivity.
  - intros r [<- | []]. reflexivity.
Defined.

Section StatusCounts.

Lemma dict_get_none (k : string) (d : Counts) :
  dict_get k d = None <-> ~ In k (map fst d).
Proof.
  induction d as [|[k' v] d IH]; simpl.
  - tauto.
  - destruct (String.eqb k' k) eqn:E.
    + apply String.eqb_eq in E. split; [discriminate | intros H; exfalso; auto].
    + apply String.eqb_neq in E. rewrite IH. tauto.
Qed.

Lemma dict_get_set_same (k : string) (v : nat) (d : Counts) :
  dict_get k (dict_set k v d) = Some v.
Proof.
  induction d as [|[k' v'] d IH]; simpl.
  - now rewrite String.eqb_refl.
  - destruct (String.eqb k' k) eqn:E; simpl; rewrite E; [reflexivity | exact IH].
Qed.

Lemma dict_get_set_other (k k0 : string) (v : nat) (d : Counts) :
  k0 <> k -> dict_get k0 (dict_set k v d) = dict_get k0 d.
Proof.
  intros Hne. induction d as [|[k' v'] d IH]; simpl.
  - assert (E : String.eqb k k0 = false) by (apply String.eqb_neq; congruence).
    now rewrite E.
  - destruct (String.eqb k' k) eqn:E; simpl.
    + apply String.eqb_eq in E. subst k'.
      assert (E : String.eqb k k0 = false) by (apply String.eqb_neq; congruence).
      now rewrite E.
    + now rewrite IH.
Qed.

Lemma dict_set_keys (k : string) (v : nat) (d : Counts) :
  map fst (dict_set k v d)
  = match dict_get k d with
    | Some _ => map fst d
    | None => map fst d ++ [k]
    end.
Proof.
  induction d as [|[k' v'] d IH]; simpl.
  - reflexivity.
  - destruct (String.eqb k' k) eqn:E; simpl; [reflexivity|].
    rewrite IH. now destruct (dict_get k d).
Qed.

Lemma dict_set_total (k : string) (v : nat) (d : Counts) :
  (total (dict_set k v d)
   + match dict_get k d with Some n => n | None => 0 end
   = total d + v)%nat.
Proof.
  induction d as [|[k' v'] d IH]; simpl.
  - lia.
  - destruct (String.eqb k' k) eqn:E; simpl; lia.
Qed.

Lemma with_status_count_snoc (st : string) (l : list TransactionResponse)
    (x : TransactionResponse) :
  with_status_count st (l ++ [x])
  = (with_status_count st l + if String.eqb (status x) st then 1 else 0)%nat.
Proof.
  unfold with_status_count. rewrite filter_app, length_app. simpl.
  now destruct (String.eqb (status x) st).
Qed.

(** One turn of the loop never meets the KeyError and counts the transaction
    under its status. *)
Lemma count_status_spec (d : Counts) (l : list TransactionResponse)
    (x : TransactionResponse) :
  represents d l ->
  exists d', count_status d x = Some d' /\ represents d' (l ++ [x]).
Proof.
  intros [Hnd [Htot Hget]]. unfold count_status.
  set (st := status x).
  set (d1 := match dict_get st d with
             | Some _ => d
             | None => dict_set st 0 d
             end).
  assert (H1 : exists n, dict_get st d1 = Some n
                         /\ n = with_status_count st l
                         /\ NoDup (map fst d1)
                         /\ total d1 = List.length l
                         /\ forall k, k <> st -> dict_get k d1 = dict_get k d).
  { subst d1. pose proof (Hget st) as Hst.
    destruct (dict_get st d) as [n|] eqn:Hd.
    - exists n. split; [exact Hd|].
      destruct (Nat.eqb (with_status_count st l) 0); [discriminate|].
      inversion Hst. auto.
    - exists 0%nat. rewrite dict_get_set_same. split; [reflexivity|].
      destruct (Nat.eqb (with_status_count st l) 0) eqn:E; [|discriminate].
      apply Nat.eqb_eq in E. split; [now symmetry|].
      split; [rewrite dict_set_keys, Hd; apply NoDup_snoc;
              [exact Hnd | now apply dict_get_none]|].
      split; [pose proof (dict_set_total st 0 d) as Ht; rewrite Hd in Ht; lia|].
      intros k Hk. now apply dict_get_set_other. }
  destruct H1 as [n [Hn [En [Hnd1 [Htot1 Hoth]]]]].
  rewrite Hn. eexists. split; [reflexivity|].
  split; [|split].
  - now rewrite dict_set_keys, Hn.
  - pose proof (dict_set_total st (n + 1) d1) as Ht. rewrite Hn in Ht.
    rewrite length_app. simpl. lia.
  - intros k. rewrite with_status_count_snoc. fold st.
    destruct (String.eqb st k) eqn:E.
    + apply String.eqb_eq in E. subst k. rewrite dict_get_set_same.
      replace (Nat.eqb (with_status_count st l + 1) 0) with false
        by (symmetry; apply Nat.eqb_neq; lia).
      now subst n.
    + apply String.eqb_neq in E.
      rewrite dict_get_set_other by congruence.
      rewrite Hoth by congruence. rewrite Nat.add_0_r. apply Hget.
Qed.

Lemma group_from_spec (rest seen : list TransactionResponse) (d : Counts) :
  represents d seen ->
  exists d', group_from d rest = Some d' /\ represents d' (seen ++ rest).
Proof.
  revert seen d. induction rest as [|x rest IH]; simpl; intros seen d Hrep.
  - exists d. now rewrite app_nil_r.
  - destruct (count_status_spec d seen x Hrep) as [d1 [E1 H1]].
    rewrite E1. destruct (IH _ _ H1) as [d' [E' H']].
    exists d'. split; [exact E'|]. now rewrite <- app_assoc in H'.
Qed.

End StatusCounts.

(** The grouping of demo_list_all never raises a KeyError, and its dict holds
    one entry per status that occurs, each with the number of transactions of
    that status; the counts add up to the number of transactions listed. *)
Theorem group_by_status_counts_each_status :
  forall transactions : list TransactionResponse,
    exists statuses,
      group_by_status transactions = Some statuses
      /\ NoDup (map fst statuses)
      /\ total statuses = List.length transactions
      /\ forall st,
           dict_get st statuses
           = if Nat.eqb (with_status_count st transactions) 0 then None
             else Some (with_status_count st transactions).
Proof.
  intros transactions. unfold group_by_status.
  assert (H0 : represents [] []).
  { split; [constructor|]. split; reflexivity. }
  destruct (group_from_spec transactions [] [] H0) as [d [E H]].
  exists d. split; [exact E | exact H].
Qed.
